(** * VibratorController native layer

  A shallow embedding of
  [services/core/jni/com_android_server_vibrator_VibratorController.cpp]:
  the native methods behind [VibratorController$NativeWrapper].

  The file is organised as the translation unit is.  [Jni] holds the
  scalar types of the binding layer, [Hal] the interface of the
  vibratorservice library the file is compiled against
  ([HalResult], [Info], [HalWrapper], [HalController]), [Controller] the
  functions of the translation unit itself.  [RetryDispatcher] and
  [Recorder] supply a retry layer and an instrumented driver, so that
  statements about which driver operations a native method issues can be
  made and evaluated.  [Mesh] embeds [libs/hwui/Mesh.h], the uniform
  builder and the mesh of the graphics library. *)

From Stdlib Require Import ZArith List String Bool Lia.
From Stdlib Require Import Floats.SpecFloat.
Import ListNotations.

Open Scope string_scope.
Open Scope list_scope.
Open Scope Z_scope.

(* ------------------------------------------------------------------ *)
(** ** Scalar types of the binding layer *)

Module Jni.

(** [jlong] and [jint] are 64 and 32 bit signed integers, carried as [Z]. *)
Definition jlong := Z.
Definition jint := Z.
Definition jboolean := bool.

(** [jfloat] is an IEEE 754 single; the code only moves such values
    around and never computes with them, so the specification floats
    of the Standard Library are enough. *)
Definition jfloat := spec_float.
Definition NAN : jfloat := S754_nan.

(** A global reference to a Java object. *)
Definition jobject := Z.

(** [static_cast<int32_t>(x)] on a [jlong]: the low 32 bits, read as a
    signed number. *)
Definition static_cast_int32 (x : jlong) : Z :=
  (x + 2 ^ 31) mod 2 ^ 32 - 2 ^ 31.

(** [static_cast<int8_t>(x)] on a [jlong]: the low 8 bits, read as a
    signed number; this is the conversion to an enumeration backed by a
    byte. *)
Definition static_cast_int8 (x : jlong) : Z :=
  (x + 2 ^ 7) mod 2 ^ 8 - 2 ^ 7.

(** The part of [JNIEnv] the constructor uses.  [NewGlobalRef] yields
    null for a null argument or when the VM is out of memory. *)
Record JNIEnv := {
  NewGlobalRef : option jobject -> option jobject
}.

End Jni.
Import Jni.

(* ------------------------------------------------------------------ *)
(** ** The vibratorservice interface

  [<vibratorservice/VibratorHalController.h>] is a library header; the
  translation unit uses the types below through their public
  operations only. *)

Module Hal.

(** [vibrator::HalResult<T>]. *)
Inductive HalResult (T : Type) : Type :=
| HalOk (v : T)
| HalUnsupported
| HalFailed (errorMessage : string).
Arguments HalOk {T} v.
Arguments HalUnsupported {T}.
Arguments HalFailed {T} errorMessage.

Definition isOk {T} (r : HalResult T) : bool :=
  match r with HalOk _ => true | _ => false end.

Definition isUnsupported {T} (r : HalResult T) : bool :=
  match r with HalUnsupported => true | _ => false end.

Definition isFailed {T} (r : HalResult T) : bool :=
  match r with HalFailed _ => true | _ => false end.

Definition valueOr {T} (r : HalResult T) (defaultValue : T) : T :=
  match r with HalOk v => v | _ => defaultValue end.

(** [vibrator::Capabilities]: a bit set, [NONE] being the empty one. *)
Definition Capabilities := Z.
Definition NONE : Capabilities := 0.

(** [aidl::Effect] and [aidl::CompositePrimitive] are enumerations
    over [int32_t]; [aidl::EffectStrength] is an enumeration over a byte
    (the assertions at the head of the translation unit compare its
    values as [uint8_t]). *)
Definition Effect := Z.
Definition EffectStrength := Z.
Definition CompositePrimitive := Z.

Record CompositeEffect := {
  primitive : CompositePrimitive;
  scale : jfloat;
  delayMs : Z
}.

(** The completion callback is the closure [createCallback] returns:
    it captures the wrapper (its listener and its vibrator id) and the
    vibration id. *)
Record Callback := {
  cb_listener : jobject;
  cb_vibratorId : Z;
  cb_vibrationId : jlong
}.

(** [vibrator::Info]: every field is a result of its own. *)
Record Info := {
  capabilities : HalResult Capabilities;
  supportedEffects : HalResult (list Effect);
  supportedPrimitives : HalResult (list CompositePrimitive);
  resonantFrequency : HalResult jfloat;
  qFactor : HalResult jfloat
}.

(** [vibrator::HalWrapper]: the operations of one driver connection.
    [D] is the state of the driver side; each operation may change it.
    Durations are in milliseconds. *)
Record HalWrapper (D : Type) := {
  ping : D -> HalResult unit * D;
  on : Z -> Callback -> D -> HalResult unit * D;
  off : D -> HalResult unit * D;
  setAmplitude : jfloat -> D -> HalResult unit * D;
  setExternalControl : bool -> D -> HalResult unit * D;
  performEffect : Effect -> EffectStrength -> Callback -> D -> HalResult Z * D;
  performComposedEffect : list CompositeEffect -> Callback -> D -> HalResult Z * D;
  alwaysOnEnable : Z -> Effect -> EffectStrength -> D -> HalResult unit * D;
  alwaysOnDisable : Z -> D -> HalResult unit * D
}.
Arguments ping {D}.
Arguments on {D}.
Arguments off {D}.
Arguments setAmplitude {D}.
Arguments setExternalControl {D}.
Arguments performEffect {D}.
Arguments performComposedEffect {D}.
Arguments alwaysOnEnable {D}.
Arguments alwaysOnDisable {D}.

(** [vibrator::HalFunction<T>]: what a caller hands to the retry layer. *)
Definition HalFunction (D T : Type) : Type := HalWrapper D -> D -> T * D.

(** [vibrator::HalController], as far as the translation unit calls it:
    [doWithRetry], [getInfo] and [init] (whose return value the caller
    drops). *)
Record HalController (D : Type) := {
  doWithRetry :
    forall T : Type, HalFunction D (HalResult T) -> string -> D -> HalResult T * D;
  getInfo : D -> Info * D;
  init : D -> D
}.
Arguments doWithRetry {D} h {T}.
Arguments getInfo {D}.
Arguments init {D}.

(** [vibrator::ManagerHalController::getVibrator]: the result carries a
    shared pointer, which may itself be null. *)
Record ManagerHalController (D : Type) := {
  getVibrator : Z -> HalResult (option (HalController D))
}.
Arguments getVibrator {D}.

End Hal.
Import Hal.


(* ------------------------------------------------------------------ *)
(** ** The translation unit *)

Module Controller.

(** What the caller receives on the Java side. *)
Record FrequencyMapping := {
  minFrequencyHz : jfloat;
  resonantFrequencyHz : jfloat;
  frequencyResolutionHz : jfloat;
  suggestedSafeRangeHz : jfloat;
  maxAmplitudes : option (list jfloat)
}.

(** [android.os.VibratorInfo], by the arguments of its constructor; an
    array argument is [None] when the native code passes [nullptr]. *)
Record VibratorInfo := {
  vi_id : jint;
  vi_capabilities : jlong;
  vi_supportedEffects : option (list jint);
  vi_supportedPrimitives : option (list jint);
  vi_qFactor : jfloat;
  vi_frequencyMapping : FrequencyMapping
}.

(** [android.os.vibrator.PrimitiveSegment], by the three fields
    [effectFromJavaPrimitive] reads. *)
Record PrimitiveSegment := {
  mPrimitiveId : jint;
  mScale : jfloat;
  mDelay : jint
}.

(** [LOG_ALWAYS_FATAL_IF] ends the process: a computation either aborts
    with the message or completes with a value. *)
Inductive Fatal (A : Type) : Type :=
| Aborted (message : string)
| Completed (a : A).
Arguments Aborted {A} message.
Arguments Completed {A} a.

Section WithDriver.

Context {D : Type}.

(** [android_server_vibrator_VibratorManagerService_getManager()], null
    until the manager service has been initialised. *)
Variable manager : option (ManagerHalController D).

Definition findVibrator (vibratorId : Z) : option (HalController D) :=
  match manager with
  | None => None
  | Some m =>
      let result := getVibrator m vibratorId in
      match result with
      | HalOk v => v
      | _ => None
      end
  end.

(** The members of [VibratorControllerWrapper].  [mHal] is a shared
    pointer the constructor has checked, so an object of the class holds
    a controller. *)
Record VibratorControllerWrapper := {
  mHal : HalController D;
  mVibratorId : Z;
  mCallbackListener : jobject
}.

(** The constructor: both members are initialised first, then checked. *)
Definition newVibratorControllerWrapper
    (env : JNIEnv) (vibratorId : Z) (callbackListener : option jobject)
  : Fatal VibratorControllerWrapper :=
  let hal := findVibrator vibratorId in
  let listener := NewGlobalRef env callbackListener in
  match hal with
  | None => Aborted "Failed to connect to vibrator HAL, or vibratorId is invalid"
  | Some h =>
      match listener with
      | None => Aborted "Unable to create global reference to vibration callback handler"
      | Some l =>
          Completed {| mHal := h; mVibratorId := vibratorId; mCallbackListener := l |}
      end
  end.

Definition getVibratorId (w : VibratorControllerWrapper) : Z := mVibratorId w.

Definition getVibratorInfo (w : VibratorControllerWrapper) (st : D) : Info * D :=
  getInfo (mHal w) st.

Definition initHal (w : VibratorControllerWrapper) (st : D) : D :=
  init (mHal w) st.

Definition halCall {T : Type} (w : VibratorControllerWrapper)
    (fn : HalFunction D (HalResult T)) (functionName : string) (st : D)
  : HalResult T * D :=
  doWithRetry (mHal w) fn functionName st.

Definition createCallback (w : VibratorControllerWrapper) (vibrationId : jlong)
  : Callback :=
  {| cb_listener := mCallbackListener w;
     cb_vibratorId := mVibratorId w;
     cb_vibrationId := vibrationId |}.

(** A native pointer: the [jlong] the Java side keeps, null or the
    address of a wrapper. *)
Definition NativePtr := option VibratorControllerWrapper.

Definition vibratorNativeInit
    (env : JNIEnv) (vibratorId : jint) (callbackListener : option jobject) (st : D)
  : Fatal (NativePtr * D) :=
  match newVibratorControllerWrapper env vibratorId callbackListener with
  | Aborted msg => Aborted msg
  | Completed wrapper => Completed (Some wrapper, initHal wrapper st)
  end.

Definition vibratorIsAvailable (ptr : NativePtr) (st : D) : jboolean * D :=
  match ptr with
  | None => (false, st)
  | Some wrapper =>
      let pingFn : HalFunction D (HalResult unit) := fun hal => ping hal in
      let (result, st') := halCall wrapper pingFn "ping" st in
      (if isOk result then true else false, st')
  end.

Definition vibratorOn (ptr : NativePtr) (timeoutMs vibrationId : jlong) (st : D)
  : jlong * D :=
  match ptr with
  | None => (-1, st)
  | Some wrapper =>
      let callback := createCallback wrapper vibrationId in
      let onFn : HalFunction D (HalResult unit) :=
        fun hal => on hal timeoutMs callback in
      let (result, st') := halCall wrapper onFn "on" st in
      (if isOk result then timeoutMs
       else if isUnsupported result then 0 else -1, st')
  end.

Definition vibratorOff (ptr : NativePtr) (st : D) : D :=
  match ptr with
  | None => st
  | Some wrapper =>
      let offFn : HalFunction D (HalResult unit) := fun hal => off hal in
      snd (halCall wrapper offFn "off" st)
  end.

Definition vibratorSetAmplitude (ptr : NativePtr) (amplitude : jfloat) (st : D) : D :=
  match ptr with
  | None => st
  | Some wrapper =>
      let setAmplitudeFn : HalFunction D (HalResult unit) :=
        fun hal => setAmplitude hal amplitude in
      snd (halCall wrapper setAmplitudeFn "setAmplitude" st)
  end.

Definition vibratorSetExternalControl (ptr : NativePtr) (enabled : jboolean) (st : D)
  : D :=
  match ptr with
  | None => st
  | Some wrapper =>
      let setExternalControlFn : HalFunction D (HalResult unit) :=
        fun hal => setExternalControl hal enabled in
      snd (halCall wrapper setExternalControlFn "setExternalControl" st)
  end.

Definition vibratorPerformEffect
    (ptr : NativePtr) (effect strength vibrationId : jlong) (st : D) : jlong * D :=
  match ptr with
  | None => (-1, st)
  | Some wrapper =>
      let effectType : Effect := static_cast_int32 effect in
      let effectStrength : EffectStrength := static_cast_int8 strength in
      let callback := createCallback wrapper vibrationId in
      let performEffectFn : HalFunction D (HalResult Z) :=
        fun hal => performEffect hal effectType effectStrength callback in
      let (result, st') := halCall wrapper performEffectFn "performEffect" st in
      (match result with
       | HalOk value => value
       | _ => if isUnsupported result then 0 else -1
       end, st')
  end.

Definition effectFromJavaPrimitive (primitive : PrimitiveSegment) : CompositeEffect :=
  {| Hal.primitive := mPrimitiveId primitive;
     scale := mScale primitive;
     delayMs := mDelay primitive |}.

(** The loop of [vibratorPerformComposedEffect]: one [push_back] per
    element of the Java array, in order. *)
Fixpoint collectEffects (composition : list PrimitiveSegment)
    (effects : list CompositeEffect) : list CompositeEffect :=
  match composition with
  | [] => effects
  | element :: rest =>
      collectEffects rest (effects ++ [effectFromJavaPrimitive element])
  end.

Definition vibratorPerformComposedEffect
    (ptr : NativePtr) (composition : list PrimitiveSegment) (vibrationId : jlong)
    (st : D) : jlong * D :=
  match ptr with
  | None => (-1, st)
  | Some wrapper =>
      let effects := collectEffects composition [] in
      let callback := createCallback wrapper vibrationId in
      let performComposedEffectFn : HalFunction D (HalResult Z) :=
        fun hal => performComposedEffect hal effects callback in
      let (result, st') :=
        halCall wrapper performComposedEffectFn "performComposedEffect" st in
      (match result with
       | HalOk value => value
       | _ => if isUnsupported result then 0 else -1
       end, st')
  end.

Definition vibratorAlwaysOnEnable
    (ptr : NativePtr) (id effect strength : jlong) (st : D) : D :=
  match ptr with
  | None => st
  | Some wrapper =>
      let alwaysOnEnableFn : HalFunction D (HalResult unit) :=
        fun hal =>
          alwaysOnEnable hal (static_cast_int32 id) (static_cast_int32 effect)
            (static_cast_int8 strength) in
      snd (halCall wrapper alwaysOnEnableFn "alwaysOnEnable" st)
  end.

Definition vibratorAlwaysOnDisable (ptr : NativePtr) (id : jlong) (st : D) : D :=
  match ptr with
  | None => st
  | Some wrapper =>
      let alwaysOnDisableFn : HalFunction D (HalResult unit) :=
        fun hal => alwaysOnDisable hal (static_cast_int32 id) in
      snd (halCall wrapper alwaysOnDisableFn "alwaysOnDisable" st)
  end.

(** [vibratorGetInfo] returns a Java object, or null for a null wrapper.
    Allocation in the VM ([NewIntArray], [NewObject]) is taken to
    succeed.  The casts to [jlong] and [jfloat] keep the value, and so do
    not show on [Z] and on [jfloat]. *)
Definition vibratorGetInfo (ptr : NativePtr) (st : D) : option VibratorInfo * D :=
  match ptr with
  | None => (None, st)
  | Some wrapper =>
      let (info, st') := getVibratorInfo wrapper st in
      let capabilities : jlong := valueOr (capabilities info) NONE in
      let resonantFrequency : jfloat := valueOr (resonantFrequency info) NAN in
      let qFactor : jfloat := valueOr (qFactor info) NAN in
      let supportedEffects :=
        match supportedEffects info with
        | HalOk effects => Some effects
        | _ => None
        end in
      let supportedPrimitives :=
        match supportedPrimitives info with
        | HalOk primitives => Some primitives
        | _ => None
        end in
      let frequencyMapping :=
        {| minFrequencyHz := NAN;
           resonantFrequencyHz := resonantFrequency;
           frequencyResolutionHz := NAN;
           suggestedSafeRangeHz := NAN;
           maxAmplitudes := None |} in
      (Some {| vi_id := getVibratorId wrapper;
               vi_capabilities := capabilities;
               vi_supportedEffects := supportedEffects;
               vi_supportedPrimitives := supportedPrimitives;
               vi_qFactor := qFactor;
               vi_frequencyMapping := frequencyMapping |}, st')
  end.

End WithDriver.

(** An effect is reported as supported when the descriptor lists it. *)
Definition reportedSupported (info : Info) (effect : Effect) : bool :=
  match supportedEffects info with
  | HalOk effects => existsb (Z.eqb effect) effects
  | _ => false
  end.

(** A value of a frequency field is a number unless it is not-a-number. *)
Definition isNumber (x : jfloat) : bool :=
  match x with S754_nan => false | _ => true end.

Arguments VibratorControllerWrapper D : clear implicits.
Arguments NativePtr D : clear implicits.

End Controller.
Import Controller.


(* ------------------------------------------------------------------ *)
(** ** The retry layer behind [doWithRetry]

    [halCall] delegates to [HalController::doWithRetry], which the
    vibratorservice library implements.  The dispatcher below follows the
    description of the Retry Dispatcher (section 4.2 of the
    specification). *)

Module RetryDispatcher.

Inductive FailureClass := Transient | Permanent.

Section Dispatcher.

Context {D : Type}.

(** The current connection, the way to re-establish it, the failure
    classifier and the policy constant. *)
Variable hal : HalWrapper D.
Variable reconnect : D -> D.
Variable classification : string -> FailureClass.
Variable bound : nat.

(** Modelled from the spec: the body of [HalController::doWithRetry] is
    not part of the translation unit.  Section 4.2: execute [fn] against
    the current connection; on a failure classified as transient,
    re-establish the connection and retry [fn], up to a fixed bound of
    retries; on a permanent failure do not retry; when the retries are
    exhausted the last error is the result; an unsupported result is
    passed on without a retry.  [retries] counts the retries still
    allowed. *)
Fixpoint attempt {T : Type} (retries : nat) (fn : HalFunction D (HalResult T))
    (st : D) : HalResult T * D :=
  let (result, st') := fn hal st in
  match result with
  | HalFailed reason =>
      match classification reason with
      | Permanent => (result, st')
      | Transient =>
          match retries with
          | O => (result, st')
          | S n => attempt n fn (reconnect st')
          end
      end
  | _ => (result, st')
  end.

(** Modelled from the spec: [call(fn, classification)] of section 4.2,
    the retry policy being the one of this dispatcher; the function name
    is only logged. *)
Definition call {T : Type} (fn : HalFunction D (HalResult T))
    (functionName : string) (st : D) : HalResult T * D :=
  attempt bound fn st.


(** Modelled from the spec: a [HalController] whose [doWithRetry] is the
    dispatcher; [describe] is the Capability Descriptor builder of
    section 4.3 and [connect] the connection attempt of section 4.1. *)
Definition controller (describe : D -> Info * D) (connect : D -> D)
  : HalController D :=
  {| doWithRetry := fun T => @call T;
     getInfo := describe;
     init := connect |}.

(** A driver that, seen from the dispatcher, fails transiently exactly
    [K] times running [fn] and then succeeds with [v]. *)
Fixpoint failsThenSucceeds {T : Type} (fn : HalFunction D (HalResult T)) (v : T)
    (K : nat) (st : D) : Prop :=
  match K with
  | O => fst (fn hal st) = HalOk v
  | S K' =>
      match fn hal st with
      | (HalFailed reason, st') =>
          classification reason = Transient
          /\ failsThenSucceeds fn v K' (reconnect st')
      | _ => False
      end
  end.

End Dispatcher.

End RetryDispatcher.

(* ------------------------------------------------------------------ *)
(** ** An instrumented driver

    To say which driver operations a native method issues, a driver is
    wrapped so that every operation is appended to a log before it is
    answered; the answers and the driver state are those of the wrapped
    driver. *)

Module Recorder.

Inductive HalOp :=
| OpPing
| OpOn (timeoutMs : Z) (callback : Callback)
| OpOff
| OpSetAmplitude (amplitude : jfloat)
| OpSetExternalControl (enabled : bool)
| OpPerformEffect (effect : Effect) (strength : EffectStrength) (callback : Callback)
| OpPerformComposedEffect (effects : list CompositeEffect) (callback : Callback)
| OpAlwaysOnEnable (id : Z) (effect : Effect) (strength : EffectStrength)
| OpAlwaysOnDisable (id : Z).

Definition Recorded (D : Type) : Type := (D * list HalOp)%type.

Definition calls {D : Type} (st : Recorded D) : list HalOp := snd st.

Definition logged {D T : Type} (op : HalOp) (f : D -> T * D)
  : Recorded D -> T * Recorded D :=
  fun st =>
    let (result, d') := f (fst st) in
    (result, (d', snd st ++ [op])).

Definition recording {D : Type} (hal : HalWrapper D) : HalWrapper (Recorded D) :=
  {| ping := logged OpPing (ping hal);
     on := fun t cb => logged (OpOn t cb) (on hal t cb);
     off := logged OpOff (off hal);
     setAmplitude := fun a => logged (OpSetAmplitude a) (setAmplitude hal a);
     setExternalControl :=
       fun e => logged (OpSetExternalControl e) (setExternalControl hal e);
     performEffect :=
       fun e s cb => logged (OpPerformEffect e s cb) (performEffect hal e s cb);
     performComposedEffect :=
       fun es cb =>
         logged (OpPerformComposedEffect es cb) (performComposedEffect hal es cb);
     alwaysOnEnable :=
       fun i e s => logged (OpAlwaysOnEnable i e s) (alwaysOnEnable hal i e s);
     alwaysOnDisable := fun i => logged (OpAlwaysOnDisable i) (alwaysOnDisable hal i) |}.

(** A change of the driver side that is not a driver operation (a
    reconnection) leaves the log alone. *)
Definition aside {D : Type} (f : D -> D) : Recorded D -> Recorded D :=
  fun st => (f (fst st), snd st).

(** A function handed to the retry layer issues [op] when each run of it
    on the instrumented driver adds exactly [op] to the log and changes
    the driver as [f] does. *)
Definition issues {D T : Type} (hal : HalWrapper D)
    (fn : HalFunction (Recorded D) T) (op : HalOp) : Prop :=
  exists f : D -> T * D, fn (recording hal) = logged op f.

(** The controller the statements about driver operations are made for:
    the dispatcher over an instrumented driver. *)
Definition dispatching {D : Type} (hal : HalWrapper D) (reconnect : D -> D)
    (classification : string -> RetryDispatcher.FailureClass) (bound : nat)
    (describe : Recorded D -> Info * Recorded D)
    (connect : Recorded D -> Recorded D) : HalController (Recorded D) :=
  RetryDispatcher.controller (recording hal) (aside reconnect) classification bound
    describe connect.

(** A wrapper whose controller is the dispatcher over the instrumented
    driver. *)
Definition dispatchingWrapper {D : Type} (hal : HalWrapper D) (reconnect : D -> D)
    (classification : string -> RetryDispatcher.FailureClass) (bound : nat)
    (describe : Recorded D -> Info * Recorded D)
    (connect : Recorded D -> Recorded D)
    (vibratorId : Z) (listener : jobject) : VibratorControllerWrapper (Recorded D) :=
  {| mHal := dispatching hal reconnect classification bound describe connect;
     mVibratorId := vibratorId;
     mCallbackListener := listener |}.

(** Firing a completion callback: [CallVoidMethod] on the listener with
    the vibrator id and the vibration id, seen as the notification the
    listener receives. *)
Definition fire (callback : Callback) (delivered : list (jobject * Z * jlong))
  : list (jobject * Z * jlong) :=
  delivered ++ [(cb_listener callback, cb_vibratorId callback, cb_vibrationId callback)].

End Recorder.
Import Recorder.

(* ------------------------------------------------------------------ *)
(** ** A driver for examples

    The driver answers every operation with a failure while its counter
    of pending failures is positive, and with success afterwards. *)

Module Stub.

Definition deadObject : string := "DEAD_OBJECT".

Definition answer {T : Type} (v : T) (pending : nat) : HalResult T * nat :=
  match pending with
  | O => (HalOk v, O)
  | S n => (HalFailed deadObject, n)
  end.

Definition flaky (duration : Z) : HalWrapper nat :=
  {| ping := answer tt;
     on := fun _ _ => answer tt;
     off := answer tt;
     setAmplitude := fun _ => answer tt;
     setExternalControl := fun _ => answer tt;
     performEffect := fun _ _ _ => answer duration;
     performComposedEffect := fun _ _ => answer duration;
     alwaysOnEnable := fun _ _ _ => answer tt;
     alwaysOnDisable := fun _ => answer tt |}.

Definition classify (reason : string) : RetryDispatcher.FailureClass :=
  if String.eqb reason deadObject
  then RetryDispatcher.Transient else RetryDispatcher.Permanent.

(** A descriptor of a driver that lists [CLICK] (effect 0) as supported
    and reports nothing about frequencies. *)
Definition clickOnly : Info :=
  {| capabilities := HalOk 5;
     supportedEffects := HalOk [0];
     supportedPrimitives := HalUnsupported;
     resonantFrequency := HalUnsupported;
     qFactor := HalFailed deadObject |}.

(** A descriptor of a driver that reports nothing at all. *)
Definition silent : Info :=
  {| capabilities := HalUnsupported;
     supportedEffects := HalUnsupported;
     supportedPrimitives := HalUnsupported;
     resonantFrequency := HalUnsupported;
     qFactor := HalUnsupported |}.

Definition hc (info : Info) (bound : nat) : HalController (Recorded nat) :=
  dispatching (flaky 20) (fun d => d) classify bound (fun st => (info, st))
    (fun st => st).

Definition wrapper (info : Info) (bound : nat) : VibratorControllerWrapper (Recorded nat) :=
  dispatchingWrapper (flaky 20) (fun d => d) classify bound (fun st => (info, st))
    (fun st => st) 0 77.

(** IEEE singles in canonical form. *)
Definition zero : jfloat := S754_zero false.
Definition one : jfloat := S754_finite false 8388608 (-23).
Definition oneAndHalf : jfloat := S754_finite false 12582912 (-23).

(** The interval (0,1] of amplitudes. *)
Definition inUnitInterval (a : jfloat) : bool :=
  SFltb zero a && SFleb a one.

(** A manager that knows vibrator 0 only. *)
Definition managerOf (h : HalController (Recorded nat))
  : ManagerHalController (Recorded nat) :=
  {| getVibrator := fun id => if Z.eqb id 0 then HalOk (Some h) else HalFailed "no such vibrator" |}.

Definition env : JNIEnv := {| NewGlobalRef := fun o => o |}.

End Stub.


(* ------------------------------------------------------------------ *)
(** ** The mesh wrapper

    A shallow embedding of [libs/hwui/Mesh.h]: the uniform builder, which
    writes values into a block of uniform data it may share with meshes
    already built, and the mesh, which rebuilds its [SkMesh] when it is
    marked dirty or the graphics context changes. *)

Module Mesh.

Definition byte := Byte.byte.

(** Conversion of an integer to [size_t], 64 bits without sign. *)
Definition to_size_t (x : Z) : Z := x mod 2 ^ 64.

Definition sizeof_float : Z := 4.

(** [LOG_FATAL] ends the process in a build with debug checks and is
    compiled out when [LOG_NDEBUG] is set; [next] is what follows the
    macro in that case. *)
Definition LOG_FATAL {A : Type} (LOG_NDEBUG : bool) (message : string)
    (next : Fatal A) : Fatal A :=
  if LOG_NDEBUG then next else Aborted message.

(** *** Reference-counted data

    [sk_sp<SkData>] is a counted reference to a block of bytes.  The
    memory is the list of the blocks allocated so far, a reference is
    the index of its block, and [refs] is the number of references that
    exist to the block, whoever holds them. *)
Record SkData := {
  bytes : list byte;
  refs : nat
}.

Definition Memory := list SkData.
Definition sk_sp := nat.

Definition deref (m : Memory) (p : sk_sp) : SkData :=
  nth p m {| bytes := []; refs := 0%nat |}.

(** [SkData::unique()]. *)
Definition unique (m : Memory) (p : sk_sp) : bool :=
  Nat.eqb (refs (deref m p)) 1.

(** [SkData::MakeWithCopy] allocates a block with one reference. *)
Definition MakeWithCopy (src : list byte) (m : Memory) : sk_sp * Memory :=
  (List.length m, m ++ [{| bytes := src; refs := 1%nat |}]).

Fixpoint update (p : sk_sp) (f : SkData -> SkData) (m : Memory) : Memory :=
  match m, p with
  | [], _ => []
  | d :: rest, O => f d :: rest
  | d :: rest, S p' => d :: update p' f rest
  end.

(** Giving up one reference, as the assignment to an [sk_sp] does for
    the block it referred to. *)
Definition unref (p : sk_sp) (m : Memory) : Memory :=
  update p (fun d => {| bytes := bytes d; refs := pred (refs d) |}) m.

(** [memcpy] of [src] into a block at [offset]; the destination has to
    hold [offset + length src] bytes. *)
Definition overwrite (offset : nat) (src dst : list byte) : list byte :=
  firstn offset dst ++ src ++ skipn (offset + List.length src)%nat dst.

Definition memcpy (p : sk_sp) (offset : nat) (src : list byte) (m : Memory)
  : Memory :=
  update p (fun d => {| bytes := overwrite offset src (bytes d); refs := refs d |}) m.

(** *** The uniform builder *)

(** [SkRuntimeEffect::Uniform], by what the code reads of it. *)
Record Uniform := {
  offset : Z;
  sizeInBytes : Z
}.

(** [SkMeshSpecification], by the two queries the code makes. *)
Record SkMeshSpecification := {
  findUniform : string -> option Uniform;
  uniformSize : Z
}.

Record MeshUniformBuilder := {
  fUniforms : sk_sp;
  fMeshSpec : SkMeshSpecification
}.

(** [uniform(name)]: the variable of that name, null when the
    specification has none; the owner is the builder itself. *)
Definition uniform (b : MeshUniformBuilder) (name : string) : option Uniform :=
  findUniform (fMeshSpec b) name.

(** [writableUniformData]: the block to write to, after a copy when the
    block is shared. *)
Definition writableUniformData (b : MeshUniformBuilder) (m : Memory)
  : sk_sp * MeshUniformBuilder * Memory :=
  if negb (unique m (fUniforms b)) then
    let (p, m1) := MakeWithCopy (bytes (deref m (fUniforms b))) m in
    let m2 := unref (fUniforms b) m1 in
    (p, {| fUniforms := p; fMeshSpec := fMeshSpec b |}, m2)
  else (fUniforms b, b, m).

(** [MeshUniform::set(val, count)] for an element type of [sizeofT]
    bytes; [val] is the memory at the pointer. *)
Definition set (LOG_NDEBUG : bool) (fVar : option Uniform) (sizeofT : Z)
    (val : list byte) (count : Z) (b : MeshUniformBuilder) (m : Memory)
  : Fatal (bool * (MeshUniformBuilder * Memory)) :=
  match fVar with
  | None =>
      LOG_FATAL LOG_NDEBUG "Assigning to missing variable" (Completed (false, (b, m)))
  | Some var =>
      let n := to_size_t (sizeofT * to_size_t count) in
      if negb (n =? sizeInBytes var) then
        LOG_FATAL LOG_NDEBUG "Incorrect value size" (Completed (false, (b, m)))
      else
        let '(p, b', m') := writableUniformData b m in
        Completed
          (true, (b', memcpy p (Z.to_nat (offset var)) (firstn (Z.to_nat n) val) m'))
  end.

(** A [float] in memory: its four bytes. *)
Definition floatBits := (byte * byte * byte * byte)%type.

Definition bytesOf (w : floatBits) : list byte :=
  let '(b0, b1, b2, b3) := w in [b0; b1; b2; b3].

(** [SkMatrix], by [get]. *)
Record SkMatrix := {
  get : nat -> floatBits
}.

(** [data[i] = w] for a [float* data] at [base] in the block. *)
Definition storeFloat (p : sk_sp) (base i : nat) (w : floatBits) (m : Memory)
  : Memory :=
  memcpy p (base + 4 * i)%nat (bytesOf w) m.

(** [MeshUniform::operator=(const SkMatrix&)]. *)
Definition assignMatrix (LOG_NDEBUG : bool) (fVar : option Uniform) (val : SkMatrix)
    (b : MeshUniformBuilder) (m : Memory) : Fatal (MeshUniformBuilder * Memory) :=
  match fVar with
  | None =>
      LOG_FATAL LOG_NDEBUG "Assigning to missing variable" (Completed (b, m))
  | Some var =>
      if negb (sizeInBytes var =? 9 * sizeof_float) then
        LOG_FATAL LOG_NDEBUG "Incorrect value size" (Completed (b, m))
      else
        let '(p, b', m') := writableUniformData b m in
        let data := Z.to_nat (offset var) in
        let m0 := storeFloat p data 0%nat (get val 0%nat) m' in
        let m1 := storeFloat p data 1%nat (get val 3%nat) m0 in
        let m2 := storeFloat p data 2%nat (get val 6%nat) m1 in
        let m3 := storeFloat p data 3%nat (get val 1%nat) m2 in
        let m4 := storeFloat p data 4%nat (get val 4%nat) m3 in
        let m5 := storeFloat p data 5%nat (get val 7%nat) m4 in
        let m6 := storeFloat p data 6%nat (get val 2%nat) m5 in
        let m7 := storeFloat p data 7%nat (get val 5%nat) m6 in
        let m8 := storeFloat p data 8%nat (get val 8%nat) m7 in
        Completed (b', m8)
  end.

(** The float stored at index [i] of a [float*] at [base]. *)
Definition loadFloat (base i : nat) (d : list byte) : list byte :=
  firstn 4 (skipn (base + 4 * i)%nat d).

(** *** The mesh *)

(** [GrDirectContext::DirectContextID]: [None] is the id a default
    construction gives. *)
Definition DirectContextID := option Z.

Record GrDirectContext := {
  directContextID : DirectContextID
}.

Definition SkRect := (jfloat * jfloat * jfloat * jfloat)%type.

(** The buffers and meshes Skia makes, by the call that made them. *)
Inductive SkVertexBuffer :=
| MakeVertexBuffer (context : option GrDirectContext) (data : list byte).

Inductive SkIndexBuffer :=
| MakeIndexBuffer (context : option GrDirectContext) (data : list byte).

Inductive SkMesh :=
| DefaultSkMesh
| Make (spec : SkMeshSpecification) (mode : Z) (vb : SkVertexBuffer)
    (vertexCount vertexOffset : Z) (uniforms : sk_sp) (bounds : SkRect)
| MakeIndexed (spec : SkMeshSpecification) (mode : Z) (vb : SkVertexBuffer)
    (vertexCount vertexOffset : Z) (ib : SkIndexBuffer)
    (indexCount indexOffset : Z) (uniforms : sk_sp) (bounds : SkRect).

Record Mesh := {
  mMeshSpec : SkMeshSpecification;
  mMode : Z;
  mVertexBufferData : list byte;
  mVertexCount : Z;
  mVertexOffset : Z;
  mIndexBufferData : list byte;
  mIndexCount : Z;
  mIndexOffset : Z;
  mBuilder : MeshUniformBuilder;
  mBounds : SkRect;
  mMesh : SkMesh;
  mIsDirty : bool;
  mGenerationId : DirectContextID
}.

(** [copyToVector]: [src] is the memory at the pointer, [None] for a
    null pointer; it has to hold [srcSize] bytes. *)
Definition copyToVector (dst : list byte) (src : option (list byte)) (srcSize : nat)
  : list byte :=
  match src with
  | Some memory => firstn srcSize memory
  | None => dst
  end.

(** The constructor without an index buffer. *)
Definition newMesh (meshSpec : SkMeshSpecification) (mode : Z)
    (vertexBuffer : option (list byte)) (vertexBufferSize : nat)
    (vertexCount vertexOffset : jint) (builder : MeshUniformBuilder)
    (bounds : SkRect) : Mesh :=
  {| mMeshSpec := meshSpec;
     mMode := mode;
     mVertexBufferData := copyToVector [] vertexBuffer vertexBufferSize;
     mVertexCount := to_size_t vertexCount;
     mVertexOffset := to_size_t vertexOffset;
     mIndexBufferData := [];
     mIndexCount := 0;
     mIndexOffset := 0;
     mBuilder := builder;
     mBounds := bounds;
     mMesh := DefaultSkMesh;
     mIsDirty := true;
     mGenerationId := None |}.

(** The constructor with an index buffer. *)
Definition newIndexedMesh (meshSpec : SkMeshSpecification) (mode : Z)
    (vertexBuffer : option (list byte)) (vertexBufferSize : nat)
    (vertexCount vertexOffset : jint)
    (indexBuffer : option (list byte)) (indexBufferSize : nat)
    (indexCount indexOffset : jint) (builder : MeshUniformBuilder)
    (bounds : SkRect) : Mesh :=
  {| mMeshSpec := meshSpec;
     mMode := mode;
     mVertexBufferData := copyToVector [] vertexBuffer vertexBufferSize;
     mVertexCount := to_size_t vertexCount;
     mVertexOffset := to_size_t vertexOffset;
     mIndexBufferData := copyToVector [] indexBuffer indexBufferSize;
     mIndexCount := to_size_t indexCount;
     mIndexOffset := to_size_t indexOffset;
     mBuilder := builder;
     mBounds := bounds;
     mMesh := DefaultSkMesh;
     mIsDirty := true;
     mGenerationId := None |}.

Definition sameID (a b : DirectContextID) : bool :=
  match a, b with
  | None, None => true
  | Some x, Some y => x =? y
  | _, _ => false
  end.

Definition isEmpty (v : list byte) : bool :=
  match v with [] => true | _ => false end.

(** [updateSkMesh].  The [SkMesh] is recorded by the call that makes
    it.  The reference a made [SkMesh] keeps on the uniform block is not
    counted here: the function does not act on [Memory], and what is
    proved of [set] holds for whatever number of holders a block has. *)
Definition updateSkMesh (context : option GrDirectContext) (mesh : Mesh) : Mesh :=
  let genId : DirectContextID :=
    match context with
    | Some c => directContextID c
    | None => None
    end in
  if mIsDirty mesh || negb (sameID genId (mGenerationId mesh)) then
    let vb := MakeVertexBuffer context (mVertexBufferData mesh) in
    let built :=
      if negb (isEmpty (mIndexBufferData mesh)) then
        let ib := MakeIndexBuffer context (mIndexBufferData mesh) in
        MakeIndexed (mMeshSpec mesh) (mMode mesh) vb (mVertexCount mesh)
          (mVertexOffset mesh) ib (mIndexCount mesh) (mIndexOffset mesh)
          (fUniforms (mBuilder mesh)) (mBounds mesh)
      else
        Make (mMeshSpec mesh) (mMode mesh) vb (mVertexCount mesh)
          (mVertexOffset mesh) (fUniforms (mBuilder mesh)) (mBounds mesh) in
    {| mMeshSpec := mMeshSpec mesh;
       mMode := mMode mesh;
       mVertexBufferData := mVertexBufferData mesh;
       mVertexCount := mVertexCount mesh;
       mVertexOffset := mVertexOffset mesh;
       mIndexBufferData := mIndexBufferData mesh;
       mIndexCount := mIndexCount mesh;
       mIndexOffset := mIndexOffset mesh;
       mBuilder := mBuilder mesh;
       mBounds := mBounds mesh;
       mMesh := built;
       mIsDirty := false;
       mGenerationId := genId |}
  else mesh.

Definition getSkMesh (LOG_NDEBUG : bool) (mesh : Mesh) : Fatal SkMesh :=
  if mIsDirty mesh then
    LOG_FATAL LOG_NDEBUG
      "Attempt to obtain SkMesh when Mesh is dirty, did you forget to call updateSkMesh with a GrDirectContext? Defensively creating a CPU mesh"
      (Completed (mMesh mesh))
  else Completed (mMesh mesh).

Definition markDirty (mesh : Mesh) : Mesh :=
  {| mMeshSpec := mMeshSpec mesh;
     mMode := mMode mesh;
     mVertexBufferData := mVertexBufferData mesh;
     mVertexCount := mVertexCount mesh;
     mVertexOffset := mVertexOffset mesh;
     mIndexBufferData := mIndexBufferData mesh;
     mIndexCount := mIndexCount mesh;
     mIndexOffset := mIndexOffset mesh;
     mBuilder := mBuilder mesh;
     mBounds := mBounds mesh;
     mMesh := mMesh mesh;
     mIsDirty := true;
     mGenerationId := mGenerationId mesh |}.

Definition uniformBuilder (mesh : Mesh) : MeshUniformBuilder := mBuilder mesh.

(** *** Values for examples *)

Definition exampleSpec : SkMeshSpecification :=
  {| findUniform :=
       fun name =>
         if String.eqb name "color" then Some {| offset := 0; sizeInBytes := 4 |}
         else if String.eqb name "transform"
              then Some {| offset := 4; sizeInBytes := 36 |}
              else None;
     uniformSize := 40 |}.

Definition exampleBuilder : MeshUniformBuilder :=
  {| fUniforms := 0%nat; fMeshSpec := exampleSpec |}.

(** One block of forty zero bytes, held by [holders] references. *)
Definition exampleMemory (holders : nat) : Memory :=
  [{| bytes := repeat Byte.x00 40; refs := holders |}].

Definition exampleMatrix : SkMatrix :=
  {| get := fun i =>
              match Byte.of_nat i with
              | Some b => (b, Byte.x00, Byte.x00, Byte.x00)
              | None => (Byte.x00, Byte.x00, Byte.x00, Byte.x00)
              end |}.

Definition exampleBounds : SkRect :=
  (S754_zero false, S754_zero false, S754_zero false, S754_zero false).

Definition colorVar : Uniform := {| offset := 0; sizeInBytes := 4 |}.

Definition transformVar : Uniform := {| offset := 4; sizeInBytes := 36 |}.

Definition exampleValue : list byte := [Byte.x01; Byte.x02; Byte.x03; Byte.x04].

End Mesh.

(* ------------------------------------------------------------------ *)
(** * Properties *)

(** ** The dispatcher and the log *)

Section DispatcherFacts.

Context {D : Type}.
Variable hal : HalWrapper D.
Variable reconnect : D -> D.
Variable classification : string -> RetryDispatcher.FailureClass.

Lemma logged_calls {T : Type} (op : HalOp) (f : D -> T * D) (st : Recorded D) :
  calls (snd (logged op f st)) = calls st ++ [op].
Proof.
  unfold logged, calls. destruct (f (fst st)); reflexivity.
Qed.

Lemma repeat_snoc (op : HalOp) (k : nat) :
  repeat op k ++ [op] = op :: repeat op k.
Proof.
  induction k as [|k IH]; simpl; [reflexivity | now rewrite IH].
Qed.

(** Every run of the dispatcher invokes the function at least once and
    at most once more than the bound, and nothing else touches the log. *)
Lemma attempt_calls {T : Type} (fn : HalFunction (Recorded D) (HalResult T))
    (op : HalOp) :
  issues hal fn op ->
  forall (n : nat) (st : Recorded D),
    exists k : nat,
      (k <= n)%nat
      /\ calls (snd (RetryDispatcher.attempt (recording hal) (aside reconnect)
                       classification n fn st))
         = calls st ++ repeat op (S k).
Proof.
  intros [f Hf] n.
  induction n as [|n IH]; intros st; simpl; rewrite Hf.
  - exists 0%nat. split; [lia|].
    pose proof (logged_calls op f st) as Hl.
    destruct (logged op f st) as [r st'] eqn:E. simpl in Hl.
    destruct r as [v| |reason]; try exact Hl.
    destruct (classification reason); exact Hl.
  - pose proof (logged_calls op f st) as Hl.
    destruct (logged op f st) as [r st'] eqn:E. simpl in Hl.
    destruct r as [v| |reason];
      try (exists 0%nat; split; [lia | exact Hl]).
    destruct (classification reason).
    + destruct (IH (aside reconnect st')) as [k [Hk Hc]].
      exists (S k). split; [lia|].
      rewrite Hc. unfold aside, calls in *. simpl. rewrite Hl.
      rewrite <- app_assoc. simpl. f_equal.
    + exists 0%nat; split; [lia | exact Hl].
Qed.

End DispatcherFacts.

(** ** What the native methods hand to the driver *)

Ltac issues_by f := exists f; reflexivity.

Ltac through_dispatcher :=
  cbn [halCall mHal dispatching RetryDispatcher.controller doWithRetry];
  unfold RetryDispatcher.call.

Section NativeMethods.

Context {D : Type}.
Variable hal : HalWrapper D.
Variable reconnect : D -> D.
Variable classification : string -> RetryDispatcher.FailureClass.
Variable bound : nat.
Variable describe : Recorded D -> Info * Recorded D.
Variable connect : Recorded D -> Recorded D.

Local Abbreviation wrapperOn :=
  (dispatchingWrapper hal reconnect classification bound describe connect).

(** C1 (as amended): [vibratorSetAmplitude] has no range check.  For
    every amplitude, inside (0,1] or not, a call on an initialised wrapper
    is the retry layer run on a function that calls the driver's
    [setAmplitude] with the value unchanged; under the dispatcher the
    driver receives that operation at least once and at most once more
    than the retry bound, and nothing else.  Only a null wrapper stops a
    request before the driver. *)
Theorem setAmplitude_forwards_every_amplitude (amplitude : jfloat) :
  (forall (w : VibratorControllerWrapper D) (st : D),
      vibratorSetAmplitude (Some w) amplitude st
      = snd (doWithRetry (mHal w) (fun h => setAmplitude h amplitude) "setAmplitude" st))
  /\ (forall (vibratorId : Z) (listener : jobject) (st : Recorded D),
         exists k : nat,
           (k <= bound)%nat
           /\ calls (vibratorSetAmplitude (Some (wrapperOn vibratorId listener))
                       amplitude st)
              = calls st ++ repeat (OpSetAmplitude amplitude) (S k))
  /\ (forall st : Recorded D,
         vibratorSetAmplitude None amplitude st = st).
Proof.
  split; [reflexivity | split; [| reflexivity]].
  intros vibratorId listener st.
  unfold vibratorSetAmplitude, dispatchingWrapper. through_dispatcher.
  apply attempt_calls. issues_by (setAmplitude hal amplitude).
Qed.

(** C2 (as amended): an empty primitive sequence is not treated
    specially.  [vibratorPerformComposedEffect] still runs the retry
    layer on a function that calls the driver's [performComposedEffect]
    with the empty list and the completion callback of the vibration; the
    value returned is the duration the driver reports on success, 0 when
    it reports the operation unsupported, -1 on failure; under the
    dispatcher the driver receives that operation at least once. *)
Theorem performComposedEffect_empty_dispatched (vibrationId : jlong) :
  (forall (w : VibratorControllerWrapper D) (st : D),
      let fn : HalFunction D (HalResult Z) :=
        fun h => performComposedEffect h [] (createCallback w vibrationId) in
      let r := doWithRetry (mHal w) fn "performComposedEffect" st in
      vibratorPerformComposedEffect (Some w) [] vibrationId st
      = (match fst r with
         | HalOk duration => duration
         | HalUnsupported => 0
         | HalFailed _ => -1
         end, snd r))
  /\ (forall (vibratorId : Z) (listener : jobject) (st : Recorded D),
         let w := wrapperOn vibratorId listener in
         exists k : nat,
           (k <= bound)%nat
           /\ calls (snd (vibratorPerformComposedEffect (Some w) [] vibrationId st))
              = calls st
                ++ repeat (OpPerformComposedEffect [] (createCallback w vibrationId))
                     (S k)).
Proof.
  split.
  - intros w st fn r. subst r fn.
    unfold vibratorPerformComposedEffect, halCall. simpl collectEffects.
    destruct (doWithRetry (mHal w) _ "performComposedEffect" st) as [[v| |m] st'];
      reflexivity.
  - intros vibratorId listener st w.
    pose proof (attempt_calls hal reconnect classification
                  (fun h => performComposedEffect h [] (createCallback w vibrationId))
                  (OpPerformComposedEffect [] (createCallback w vibrationId))) as H.
    destruct (H ltac:(issues_by (performComposedEffect hal [] (createCallback w vibrationId)))
                bound st) as [k [Hk Hc]].
    exists k. split; [exact Hk|].
    rewrite <- Hc. subst w.
    unfold vibratorPerformComposedEffect, dispatchingWrapper. through_dispatcher.
    simpl collectEffects.
    match goal with
    | |- context [let (_, _) := ?e in _] => destruct e as [r st']
    end.
    reflexivity.
Qed.

(** C4: [vibratorOn] returns the requested duration when the call through
    the retry layer succeeds, 0 when it is reported unsupported and -1
    when it failed.  The only driver operation it issues is [on] with the
    requested duration and the completion callback of the vibration, whose
    firing notifies the listener with the vibrator id and the vibration
    id; under the dispatcher the driver receives it at least once, so a
    successful call has handed the driver the completion for that
    duration. *)
Theorem vibratorOn_result_and_completion (timeoutMs vibrationId : jlong) :
  (forall (w : VibratorControllerWrapper D) (st : D),
      let fn : HalFunction D (HalResult unit) :=
        fun h => on h timeoutMs (createCallback w vibrationId) in
      let r := doWithRetry (mHal w) fn "on" st in
      vibratorOn (Some w) timeoutMs vibrationId st
      = (match fst r with
         | HalOk _ => timeoutMs
         | HalUnsupported => 0
         | HalFailed _ => -1
         end, snd r))
  /\ (forall (vibratorId : Z) (listener : jobject) (st : Recorded D),
         let w := wrapperOn vibratorId listener in
         let callback := createCallback w vibrationId in
         fire callback [] = [(listener, vibratorId, vibrationId)]
         /\ exists k : nat,
             (k <= bound)%nat
             /\ calls (snd (vibratorOn (Some w) timeoutMs vibrationId st))
                = calls st ++ repeat (OpOn timeoutMs callback) (S k)).
Proof.
  split.
  - intros w st fn r. subst r fn.
    unfold vibratorOn, halCall.
    destruct (doWithRetry (mHal w) _ "on" st) as [[v| |m] st']; reflexivity.
  - intros vibratorId listener st w callback. split; [reflexivity|].
    pose proof (attempt_calls hal reconnect classification
                  (fun h => on h timeoutMs callback) (OpOn timeoutMs callback)) as H.
    destruct (H ltac:(issues_by (on hal timeoutMs callback)) bound st)
      as [k [Hk Hc]].
    exists k. split; [exact Hk|].
    rewrite <- Hc. subst callback w.
    unfold vibratorOn, dispatchingWrapper. through_dispatcher.
    match goal with
    | |- context [let (_, _) := ?e in _] => destruct e as [r st']
    end.
    reflexivity.
Qed.

End NativeMethods.

(** ** Results and the capability snapshot *)

Section Results.

Context {D : Type}.

(** C3 (as amended): [vibratorPerformEffect] returns the duration the
    driver reports when the call through the retry layer succeeds, 0 when
    the call is reported unsupported (never -1 then) and -1 when the call
    failed; the descriptor is not consulted.  The result is -1 only when
    the call failed or the driver itself reported a duration of -1, and a
    non-negative reported duration is returned as it is. *)
Theorem vibratorPerformEffect_result
    (w : VibratorControllerWrapper D) (effect strength vibrationId : jlong) (st : D) :
  let fn : HalFunction D (HalResult Z) :=
    fun h => performEffect h (static_cast_int32 effect) (static_cast_int8 strength)
               (createCallback w vibrationId) in
  let r := doWithRetry (mHal w) fn "performEffect" st in
  let ret := fst (vibratorPerformEffect (Some w) effect strength vibrationId st) in
  ret = match fst r with
        | HalOk duration => duration
        | HalUnsupported => 0
        | HalFailed _ => -1
        end
  /\ snd (vibratorPerformEffect (Some w) effect strength vibrationId st) = snd r
  /\ (isUnsupported (fst r) = true -> ret <> -1)
  /\ (ret = -1 -> isFailed (fst r) = true \/ fst r = HalOk (-1))
  /\ (forall duration, fst r = HalOk duration -> 0 <= duration -> 0 <= ret).
Proof.
  intros fn r ret. subst ret r fn.
  unfold vibratorPerformEffect, halCall.
  destruct (doWithRetry (mHal w) _ "performEffect" st) as [[v| |m] st']; simpl;
    repeat split; try reflexivity; try discriminate; intros; subst;
    try lia; try congruence; auto.
Qed.

(** C5: on an initialised wrapper [vibratorGetInfo] always returns an
    info object.  Each field is the value the driver reported when it
    reported one, and the marker of an unreported field otherwise (no
    capability, a null array, not-a-number), whatever the other fields
    are. *)
Theorem vibratorGetInfo_never_fails (w : VibratorControllerWrapper D) (st : D) :
  let info := fst (getInfo (mHal w) st) in
  exists vi : VibratorInfo,
    fst (vibratorGetInfo (Some w) st) = Some vi
    /\ vi_id vi = mVibratorId w
    /\ vi_capabilities vi
       = match capabilities info with HalOk c => c | _ => NONE end
    /\ vi_supportedEffects vi
       = match supportedEffects info with HalOk l => Some l | _ => None end
    /\ vi_supportedPrimitives vi
       = match supportedPrimitives info with HalOk l => Some l | _ => None end
    /\ vi_qFactor vi = match qFactor info with HalOk q => q | _ => NAN end
    /\ resonantFrequencyHz (vi_frequencyMapping vi)
       = match resonantFrequency info with HalOk f => f | _ => NAN end.
Proof.
  intros info. subst info.
  unfold vibratorGetInfo, getVibratorInfo.
  destruct (getInfo (mHal w) st) as [info st']. simpl.
  eexists. split; [reflexivity|]. simpl. repeat split.
Qed.

(** C6: when the driver reports no resonant frequency, the frequency
    mapping of the snapshot carries not-a-number for the resonant
    frequency, as it does for the minimum frequency, the resolution and
    the safe range, and a null amplitude table; none of the frequency
    fields is a number.  The Q factor is not-a-number too when the driver
    does not report it. *)
Theorem vibratorGetInfo_absent_frequency (w : VibratorControllerWrapper D) (st : D) :
  isOk (resonantFrequency (fst (getInfo (mHal w) st))) = false ->
  exists vi : VibratorInfo,
    fst (vibratorGetInfo (Some w) st) = Some vi
    /\ vi_frequencyMapping vi
       = {| minFrequencyHz := NAN; resonantFrequencyHz := NAN;
            frequencyResolutionHz := NAN; suggestedSafeRangeHz := NAN;
            maxAmplitudes := None |}
    /\ isNumber (resonantFrequencyHz (vi_frequencyMapping vi)) = false
    /\ isNumber (minFrequencyHz (vi_frequencyMapping vi)) = false
    /\ isNumber (frequencyResolutionHz (vi_frequencyMapping vi)) = false
    /\ isNumber (suggestedSafeRangeHz (vi_frequencyMapping vi)) = false
    /\ (isOk (qFactor (fst (getInfo (mHal w) st))) = false ->
        vi_qFactor vi = NAN).
Proof.
  unfold vibratorGetInfo, getVibratorInfo.
  destruct (getInfo (mHal w) st) as [info st']. simpl.
  intros Hf. eexists. split; [reflexivity|]. simpl.
  destruct (resonantFrequency info) as [f| |m]; try discriminate Hf;
    (repeat split; intros Hq; destruct (qFactor info); try discriminate Hq;
     reflexivity).
Qed.

(** C7: a bit of the capabilities of the snapshot is set only if the
    driver reported a capability set with that bit set; when the driver
    reports no capability set, the snapshot carries [NONE]. *)
Theorem vibratorGetInfo_capabilities_advertised
    (w : VibratorControllerWrapper D) (st : D) :
  let info := fst (getInfo (mHal w) st) in
  exists vi : VibratorInfo,
    fst (vibratorGetInfo (Some w) st) = Some vi
    /\ (forall bit : Z,
           Z.testbit (vi_capabilities vi) bit = true ->
           exists c : Capabilities,
             capabilities info = HalOk c /\ Z.testbit c bit = true)
    /\ (isOk (capabilities info) = false -> vi_capabilities vi = NONE).
Proof.
  intros info. subst info.
  unfold vibratorGetInfo, getVibratorInfo.
  destruct (getInfo (mHal w) st) as [info st']. simpl.
  eexists. split; [reflexivity|]. simpl.
  destruct (capabilities info) as [c| |m]; simpl; split;
    try discriminate; try reflexivity; intros bit Hb.
  - exists c. split; [reflexivity | exact Hb].
  - unfold NONE in Hb. rewrite Z.testbit_0_l in Hb. discriminate.
  - unfold NONE in Hb. rewrite Z.testbit_0_l in Hb. discriminate.
Qed.

(** C10: on a null native pointer every native method returns its
    failure value and leaves the driver side as it was. *)
Theorem null_wrapper_is_inert (st : D) :
  vibratorIsAvailable None st = (false, st)
  /\ (forall timeoutMs vibrationId, vibratorOn None timeoutMs vibrationId st = (-1, st))
  /\ (forall effect strength vibrationId,
         vibratorPerformEffect None effect strength vibrationId st = (-1, st))
  /\ (forall composition vibrationId,
         vibratorPerformComposedEffect None composition vibrationId st = (-1, st))
  /\ vibratorGetInfo None st = (None, st)
  /\ vibratorOff None st = st
  /\ (forall amplitude, vibratorSetAmplitude None amplitude st = st)
  /\ (forall enabled, vibratorSetExternalControl None enabled st = st)
  /\ (forall id effect strength, vibratorAlwaysOnEnable None id effect strength st = st)
  /\ (forall id, vibratorAlwaysOnDisable None id st = st).
Proof.
  repeat split.
Qed.

End Results.

(** ** Construction *)

Section Construction.

Context {D : Type}.
Variable manager : option (ManagerHalController D).

(** [findVibrator] yields null exactly when there is no manager, when the
    manager's lookup does not succeed, or when it succeeds with a null
    controller. *)
Lemma findVibrator_null (vibratorId : Z) :
  findVibrator manager vibratorId = None <->
  manager = None
  \/ exists m, manager = Some m
               /\ (isOk (getVibrator m vibratorId) = false
                   \/ getVibrator m vibratorId = HalOk None).
Proof.
  unfold findVibrator. destruct manager as [m|]; [|tauto].
  split.
  - intros H. right. exists m. split; [reflexivity|].
    destruct (getVibrator m vibratorId) as [[h|]| |msg];
      [discriminate | right | left | left]; reflexivity.
  - intros [H | [m' [Hm [H | H]]]]; [discriminate | |];
      inversion Hm; subst m'.
    + destruct (getVibrator m vibratorId); [discriminate | |]; reflexivity.
    + rewrite H. reflexivity.
Qed.

(** C8: when no controller is found for the vibrator id, [nativeInit]
    aborts with the fatal message of the constructor; whenever it
    returns, the pointer returned is a wrapper holding the controller
    that was found, so no caller obtains a wrapper with a null
    controller. *)
Theorem nativeInit_aborts_without_hal
    (env : JNIEnv) (vibratorId : jint) (callbackListener : option jobject) (st : D) :
  (findVibrator manager vibratorId = None ->
   vibratorNativeInit manager env vibratorId callbackListener st
   = Aborted "Failed to connect to vibrator HAL, or vibratorId is invalid")
  /\ (forall (ptr : NativePtr D) (st' : D),
         vibratorNativeInit manager env vibratorId callbackListener st
         = Completed (ptr, st') ->
         exists w : VibratorControllerWrapper D,
           ptr = Some w
           /\ findVibrator manager vibratorId = Some (mHal w)
           /\ mVibratorId w = vibratorId
           /\ st' = init (mHal w) st).
Proof.
  unfold vibratorNativeInit, newVibratorControllerWrapper, initHal.
  split.
  - intros H. rewrite H. reflexivity.
  - intros ptr st'.
    destruct (findVibrator manager vibratorId) as [h|]; [|discriminate].
    destruct (NewGlobalRef env callbackListener) as [l|]; [|discriminate].
    intros H. inversion H; subst.
    eexists. repeat split.
Qed.

End Construction.

(** ** The retry bound *)

Section RetryBound.

Context {D T : Type}.
Variable hal : HalWrapper D.
Variable reconnect : D -> D.
Variable classification : string -> RetryDispatcher.FailureClass.

Local Abbreviation attemptN :=
  (RetryDispatcher.attempt hal reconnect classification).
Local Abbreviation failing :=
  (RetryDispatcher.failsThenSucceeds hal reconnect classification).

Variable fn : HalFunction D (HalResult T).




End RetryBound.

(** ** Concrete runs *)

(** C1, counterexample: the amplitudes 0 and 1.5 lie outside (0,1]
    (which holds 1), and each reaches the driver as a [setAmplitude]
    operation. *)
Lemma setAmplitude_out_of_range_reaches_driver :
  Stub.inUnitInterval Stub.one = true
  /\ Stub.inUnitInterval Stub.zero = false
  /\ calls (vibratorSetAmplitude (Some (Stub.wrapper Stub.silent 1)) Stub.zero
              (0%nat, []))
     = [OpSetAmplitude Stub.zero]
  /\ Stub.inUnitInterval Stub.oneAndHalf = false
  /\ calls (vibratorSetAmplitude (Some (Stub.wrapper Stub.silent 1)) Stub.oneAndHalf
              (0%nat, []))
     = [OpSetAmplitude Stub.oneAndHalf].
Proof.
  repeat split; vm_compute; reflexivity.
Qed.

(** C2, counterexample: with an empty sequence and a driver that keeps
    failing, the result is -1, not 0, and the driver was handed the
    completion callback twice. *)
Lemma performComposedEffect_empty_not_ok :
  let callback := {| cb_listener := 77; cb_vibratorId := 0; cb_vibrationId := 9 |} in
  vibratorPerformComposedEffect (Some (Stub.wrapper Stub.silent 1)) [] 9 (5%nat, [])
  = (-1, (3%nat, [OpPerformComposedEffect [] callback;
                  OpPerformComposedEffect [] callback]))
  /\ fst (vibratorPerformComposedEffect (Some (Stub.wrapper Stub.silent 1)) [] 9
            (5%nat, [])) <> 0.
Proof.
  split; vm_compute; [reflexivity | discriminate].
Qed.

(** C3, counterexample: the descriptor lists effect 0 as supported, the
    driver keeps failing, and [vibratorPerformEffect] returns -1. *)
Lemma performEffect_supported_but_failed :
  reportedSupported
    (fst (getVibratorInfo (Stub.wrapper Stub.clickOnly 1) (5%nat, []))) 0 = true
  /\ fst (vibratorPerformEffect (Some (Stub.wrapper Stub.clickOnly 1)) 0 1 9
            (5%nat, [])) = -1
  /\ ~ 0 <= fst (vibratorPerformEffect (Some (Stub.wrapper Stub.clickOnly 1)) 0 1 9
                   (5%nat, [])).
Proof.
  split; [reflexivity | split; [reflexivity |]].
  vm_compute. intros H. apply H. reflexivity.
Qed.


(** The driver of [Stub.clickOnly] reports no resonant frequency and no
    Q factor: the snapshot carries not-a-number for both. *)
Lemma absent_frequency_run :
  isOk (resonantFrequency
          (fst (getInfo (mHal (Stub.wrapper Stub.clickOnly 1)) (0%nat, [])))) = false
  /\ exists vi : VibratorInfo,
       fst (vibratorGetInfo (Some (Stub.wrapper Stub.clickOnly 1)) (0%nat, [])) = Some vi
       /\ isNumber (resonantFrequencyHz (vi_frequencyMapping vi)) = false
       /\ vi_qFactor vi = NAN.
Proof.
  split; [reflexivity|].
  destruct (vibratorGetInfo_absent_frequency (Stub.wrapper Stub.clickOnly 1)
              (0%nat, []) eq_refl)
    as [vi [Hvi [_ [Hres [_ [_ [_ Hq]]]]]]].
  exists vi. split; [exact Hvi | split; [exact Hres | exact (Hq eq_refl)]].
Defined.

(** Without a manager no controller is found and [nativeInit] aborts;
    with a manager that knows the vibrator it returns a wrapper around
    the controller found. *)
Lemma nativeInit_run :
  vibratorNativeInit (D := Recorded nat) None Stub.env 0 (Some 77) (0%nat, [])
  = Aborted "Failed to connect to vibrator HAL, or vibratorId is invalid"
  /\ exists w : VibratorControllerWrapper (Recorded nat),
       findVibrator (Some (Stub.managerOf (Stub.hc Stub.silent 1))) 0 = Some (mHal w).
Proof.
  split.
  - exact (proj1 (nativeInit_aborts_without_hal None Stub.env 0 (Some 77) (0%nat, []))
             eq_refl).
  - destruct (proj2 (nativeInit_aborts_without_hal
                       (Some (Stub.managerOf (Stub.hc Stub.silent 1)))
                       Stub.env 0 (Some 77) (0%nat, []))
                (Some (Stub.wrapper Stub.silent 1)) (0%nat, []) eq_refl)
      as [w [_ [Hw _]]].
    exists w. exact Hw.
Defined.


(* ------------------------------------------------------------------ *)
(** * Further properties of the native methods *)

(** ** Narrowing of identifiers *)

Lemma static_cast_int32_range (x : jlong) :
  - 2 ^ 31 <= static_cast_int32 x < 2 ^ 31.
Proof.
  unfold static_cast_int32.
  pose proof (Z.mod_pos_bound (x + 2 ^ 31) (2 ^ 32) ltac:(lia)). lia.
Qed.

Lemma static_cast_int32_small (x : jlong) :
  - 2 ^ 31 <= x < 2 ^ 31 -> static_cast_int32 x = x.
Proof.
  intros H. unfold static_cast_int32.
  rewrite Z.mod_small by lia. lia.
Qed.

Lemma static_cast_int32_period (x k : Z) :
  static_cast_int32 (x + k * 2 ^ 32) = static_cast_int32 x.
Proof.
  unfold static_cast_int32.
  replace (x + k * 2 ^ 32 + 2 ^ 31) with (x + 2 ^ 31 + k * 2 ^ 32) by lia.
  rewrite Z.mod_add by lia. reflexivity.
Qed.

Lemma static_cast_int8_range (x : jlong) :
  - 2 ^ 7 <= static_cast_int8 x < 2 ^ 7.
Proof.
  unfold static_cast_int8.
  pose proof (Z.mod_pos_bound (x + 2 ^ 7) (2 ^ 8) ltac:(lia)). lia.
Qed.

Lemma static_cast_int8_small (x : jlong) :
  - 2 ^ 7 <= x < 2 ^ 7 -> static_cast_int8 x = x.
Proof.
  intros H. unfold static_cast_int8.
  rewrite Z.mod_small by lia. lia.
Qed.

Lemma collectEffects_acc (composition : list PrimitiveSegment)
    (effects : list CompositeEffect) :
  collectEffects composition effects
  = effects ++ map effectFromJavaPrimitive composition.
Proof.
  revert effects.
  induction composition as [|element rest IH]; intros effects; simpl.
  - now rewrite app_nil_r.
  - rewrite IH, <- app_assoc. reflexivity.
Qed.

Section Dispatched.

Context {D : Type}.
Variable hal : HalWrapper D.
Variable reconnect : D -> D.
Variable classification : string -> RetryDispatcher.FailureClass.
Variable bound : nat.
Variable describe : Recorded D -> Info * Recorded D.
Variable connect : Recorded D -> Recorded D.

Local Abbreviation wrapperOn :=
  (dispatchingWrapper hal reconnect classification bound describe connect).

(** What one run of [halCall] on the dispatching wrapper adds to the
    log. *)
Lemma halCall_calls {T : Type} (fn : HalFunction (Recorded D) (HalResult T))
    (op : HalOp) (vibratorId : Z) (listener : jobject) (functionName : string)
    (st : Recorded D) :
  issues hal fn op ->
  exists k : nat,
    (k <= bound)%nat
    /\ calls (snd (halCall (wrapperOn vibratorId listener) fn functionName st))
       = calls st ++ repeat op (S k).
Proof.
  intros Hfn. unfold dispatchingWrapper. through_dispatcher.
  now apply attempt_calls.
Qed.

(** [vibratorPerformComposedEffect] hands the driver one composite effect
    per element of the Java array, in the order of the array, each with
    the primitive id, the scale and the delay of its element, together
    with the completion callback of the vibration; it returns the
    duration the driver reports on success, 0 when the operation is
    reported unsupported and -1 on failure. *)
Theorem performComposedEffect_passes_sequence
    (composition : list PrimitiveSegment) (vibrationId : jlong) :
  (forall (w : VibratorControllerWrapper D) (st : D),
      let effects := map effectFromJavaPrimitive composition in
      let fn : HalFunction D (HalResult Z) :=
        fun h => performComposedEffect h effects (createCallback w vibrationId) in
      let r := doWithRetry (mHal w) fn "performComposedEffect" st in
      vibratorPerformComposedEffect (Some w) composition vibrationId st
      = (match fst r with
         | HalOk duration => duration
         | HalUnsupported => 0
         | HalFailed _ => -1
         end, snd r))
  /\ (forall (vibratorId : Z) (listener : jobject) (st : Recorded D),
         let w := wrapperOn vibratorId listener in
         exists (k : nat) (effects : list CompositeEffect),
           (k <= bound)%nat
           /\ List.length effects = List.length composition
           /\ (forall (i : nat) (p : PrimitiveSegment),
                  nth_error composition i = Some p ->
                  nth_error effects i
                  = Some {| primitive := mPrimitiveId p;
                            scale := mScale p;
                            delayMs := mDelay p |})
           /\ calls (snd (vibratorPerformComposedEffect (Some w) composition
                            vibrationId st))
              = calls st
                ++ repeat (OpPerformComposedEffect effects
                             (createCallback w vibrationId)) (S k)).
Proof.
  split.
  - intros w st effects fn r. subst r fn effects.
    unfold vibratorPerformComposedEffect, halCall.
    rewrite collectEffects_acc. simpl app.
    destruct (doWithRetry (mHal w) _ "performComposedEffect" st) as [[v| |m] st'];
      reflexivity.
  - intros vibratorId listener st w.
    set (effects := map effectFromJavaPrimitive composition).
    destruct (halCall_calls
                (fun h => performComposedEffect h effects (createCallback w vibrationId))
                (OpPerformComposedEffect effects (createCallback w vibrationId))
                vibratorId listener "performComposedEffect" st
                ltac:(issues_by (performComposedEffect hal effects
                                   (createCallback w vibrationId))))
      as [k [Hk Hc]].
    exists k, effects. split; [exact Hk|].
    split; [apply length_map|].
    split.
    + intros i p Hp. subst effects.
      rewrite nth_error_map, Hp. reflexivity.
    + rewrite <- Hc. subst w.
      unfold vibratorPerformComposedEffect.
      rewrite collectEffects_acc. simpl app. fold effects.
      match goal with
      | |- context [let (_, _) := ?e in _] => destruct e as [r st']
      end.
      reflexivity.
Qed.

(** [vibratorIsAvailable] answers true exactly when the ping through the
    retry layer succeeds: an unsupported ping and a failed one both give
    false.  The only driver operation it issues is [ping]. *)
Theorem isAvailable_pings_only :
  (forall (w : VibratorControllerWrapper D) (st : D),
      let r := doWithRetry (mHal w) (fun h => ping h) "ping" st in
      vibratorIsAvailable (Some w) st = (isOk (fst r), snd r))
  /\ (forall (vibratorId : Z) (listener : jobject) (st : Recorded D),
         exists k : nat,
           (k <= bound)%nat
           /\ calls (snd (vibratorIsAvailable (Some (wrapperOn vibratorId listener)) st))
              = calls st ++ repeat OpPing (S k)).
Proof.
  split.
  - intros w st r. subst r. unfold vibratorIsAvailable, halCall.
    destruct (doWithRetry (mHal w) _ "ping" st) as [[v| |m] st']; reflexivity.
  - intros vibratorId listener st.
    destruct (halCall_calls (fun h => ping h) OpPing vibratorId listener "ping" st
                ltac:(issues_by (ping hal))) as [k [Hk Hc]].
    exists k. split; [exact Hk|]. rewrite <- Hc.
    unfold vibratorIsAvailable.
    match goal with
    | |- context [let (_, _) := ?e in _] => destruct e as [r st']
    end.
    reflexivity.
Qed.

(** [vibratorOff] and [vibratorSetExternalControl] issue their own driver
    operation and no other, the latter with the flag it was given. *)
Theorem off_and_externalControl_operations
    (vibratorId : Z) (listener : jobject) (enabled : jboolean) (st : Recorded D) :
  (exists k : nat,
      (k <= bound)%nat
      /\ calls (vibratorOff (Some (wrapperOn vibratorId listener)) st)
         = calls st ++ repeat OpOff (S k))
  /\ (exists k : nat,
         (k <= bound)%nat
         /\ calls (vibratorSetExternalControl (Some (wrapperOn vibratorId listener))
                     enabled st)
            = calls st ++ repeat (OpSetExternalControl enabled) (S k)).
Proof.
  split.
  - apply (halCall_calls (fun h => off h) OpOff vibratorId listener "off" st).
    issues_by (off hal).
  - apply (halCall_calls (fun h => setExternalControl h enabled)
             (OpSetExternalControl enabled) vibratorId listener
             "setExternalControl" st).
    issues_by (setExternalControl hal enabled).
Qed.

(** The always-on slot is addressed by the low 32 bits of the id: the
    driver receives an id in the range of [int32_t], equal to the id
    given when that is in the range, and two ids that differ by a
    multiple of 2^32 enable, and disable, the same slot.  With the slot,
    [alwaysOnEnable] receives the effect narrowed to [int32_t] and the
    strength narrowed to a byte. *)
Theorem alwaysOn_slot_is_narrowed
    (vibratorId : Z) (listener : jobject) (id effect strength : jlong)
    (st : Recorded D) :
  let w := wrapperOn vibratorId listener in
  (exists (k : nat) (slot : Z),
      (k <= bound)%nat
      /\ - 2 ^ 31 <= slot < 2 ^ 31
      /\ (- 2 ^ 31 <= id < 2 ^ 31 -> slot = id)
      /\ calls (vibratorAlwaysOnDisable (Some w) id st)
         = calls st ++ repeat (OpAlwaysOnDisable slot) (S k))
  /\ (exists (k : nat) (slot : Z),
         (k <= bound)%nat
         /\ - 2 ^ 31 <= slot < 2 ^ 31
         /\ (- 2 ^ 31 <= id < 2 ^ 31 -> slot = id)
         /\ calls (vibratorAlwaysOnEnable (Some w) id effect strength st)
            = calls st
              ++ repeat (OpAlwaysOnEnable slot (static_cast_int32 effect)
                           (static_cast_int8 strength)) (S k))
  /\ (forall n : Z,
         vibratorAlwaysOnDisable (Some w) (id + n * 2 ^ 32) st
         = vibratorAlwaysOnDisable (Some w) id st
         /\ vibratorAlwaysOnEnable (Some w) (id + n * 2 ^ 32) effect strength st
            = vibratorAlwaysOnEnable (Some w) id effect strength st).
Proof.
  intros w. split; [|split].
  - destruct (halCall_calls (fun h => alwaysOnDisable h (static_cast_int32 id))
                (OpAlwaysOnDisable (static_cast_int32 id)) vibratorId listener
                "alwaysOnDisable" st
                ltac:(issues_by (alwaysOnDisable hal (static_cast_int32 id))))
      as [k [Hk Hc]].
    exists k, (static_cast_int32 id).
    split; [exact Hk|]. split; [apply static_cast_int32_range|].
    split; [apply static_cast_int32_small | exact Hc].
  - destruct (halCall_calls
                (fun h => alwaysOnEnable h (static_cast_int32 id)
                            (static_cast_int32 effect) (static_cast_int8 strength))
                (OpAlwaysOnEnable (static_cast_int32 id) (static_cast_int32 effect)
                   (static_cast_int8 strength)) vibratorId listener
                "alwaysOnEnable" st
                ltac:(issues_by (alwaysOnEnable hal (static_cast_int32 id)
                                   (static_cast_int32 effect)
                                   (static_cast_int8 strength))))
      as [k [Hk Hc]].
    exists k, (static_cast_int32 id).
    split; [exact Hk|]. split; [apply static_cast_int32_range|].
    split; [apply static_cast_int32_small | exact Hc].
  - intros n. unfold vibratorAlwaysOnDisable, vibratorAlwaysOnEnable.
    rewrite static_cast_int32_period. split; reflexivity.
Qed.

End Dispatched.

(** ** Results, callbacks and construction *)

Section Sequences.

Context {D : Type}.
Variable hal : HalWrapper D.
Variable reconnect : D -> D.
Variable classification : string -> RetryDispatcher.FailureClass.
Variable bound : nat.
Variable describe : Recorded D -> Info * Recorded D.
Variable connect : Recorded D -> Recorded D.

Local Abbreviation wrapperOn :=
  (dispatchingWrapper hal reconnect classification bound describe connect).

(** For an effect in the range of [int32_t] and a strength in the range
    of a signed byte, the driver receives [performEffect] with exactly
    these two values and the completion callback of the vibration.  In
    general the driver receives the effect narrowed to [int32_t] and the
    strength narrowed to a byte, both within their range. *)
Theorem performEffect_passes_identifiers
    (vibratorId : Z) (listener : jobject) (effect strength vibrationId : jlong)
    (st : Recorded D) :
  - 2 ^ 31 <= effect < 2 ^ 31 ->
  - 2 ^ 7 <= strength < 2 ^ 7 ->
  let w := wrapperOn vibratorId listener in
  let callback := {| cb_listener := listener;
                     cb_vibratorId := vibratorId;
                     cb_vibrationId := vibrationId |} in
  (exists k : nat,
      (k <= bound)%nat
      /\ calls (snd (vibratorPerformEffect (Some w) effect strength vibrationId st))
         = calls st ++ repeat (OpPerformEffect effect strength callback) (S k))
  /\ (forall anyEffect anyStrength : jlong,
         exists (k : nat) (e s : Z),
           (k <= bound)%nat
           /\ - 2 ^ 31 <= e < 2 ^ 31
           /\ - 2 ^ 7 <= s < 2 ^ 7
           /\ (e - anyEffect) mod 2 ^ 32 = 0
           /\ (s - anyStrength) mod 2 ^ 8 = 0
           /\ calls (snd (vibratorPerformEffect (Some w) anyEffect anyStrength
                            vibrationId st))
              = calls st ++ repeat (OpPerformEffect e s callback) (S k)).
Proof.
  intros He Hs w cb.
  assert (Hgen : forall e s : Z,
             exists k : nat,
               (k <= bound)%nat
               /\ calls (snd (vibratorPerformEffect (Some w) e s vibrationId st))
                  = calls st
                    ++ repeat (OpPerformEffect (static_cast_int32 e)
                                 (static_cast_int8 s) cb) (S k)).
  { intros e s.
    destruct (halCall_calls hal reconnect classification bound describe connect
                (fun h => performEffect h (static_cast_int32 e)
                            (static_cast_int8 s) cb)
                (OpPerformEffect (static_cast_int32 e) (static_cast_int8 s) cb)
                vibratorId listener "performEffect" st
                ltac:(issues_by (performEffect hal (static_cast_int32 e)
                                   (static_cast_int8 s) cb)))
      as [k [Hk Hc]].
    exists k. split; [exact Hk|]. rewrite <- Hc. subst w.
    unfold vibratorPerformEffect.
    change (createCallback (wrapperOn vibratorId listener) vibrationId) with cb.
    match goal with
    | |- context [let (_, _) := ?x in _] => destruct x as [r st']
    end.
    reflexivity. }
  split.
  - destruct (Hgen effect strength) as [k [Hk Hc]].
    rewrite (static_cast_int32_small effect He),
      (static_cast_int8_small strength Hs) in Hc.
    exists k. split; assumption.
  - intros e s. destruct (Hgen e s) as [k [Hk Hc]].
    exists k, (static_cast_int32 e), (static_cast_int8 s).
    split; [exact Hk|].
    split; [apply static_cast_int32_range|].
    split; [apply static_cast_int8_range|].
    split; [|split; [|exact Hc]].
    + unfold static_cast_int32.
      replace ((e + 2 ^ 31) mod 2 ^ 32 - 2 ^ 31 - e)
        with ((e + 2 ^ 31) mod 2 ^ 32 - (e + 2 ^ 31)) by lia.
      rewrite Zminus_mod, Zmod_mod, Z.sub_diag. reflexivity.
    + unfold static_cast_int8.
      replace ((s + 2 ^ 7) mod 2 ^ 8 - 2 ^ 7 - s)
        with ((s + 2 ^ 7) mod 2 ^ 8 - (s + 2 ^ 7)) by lia.
      rewrite Zminus_mod, Zmod_mod, Z.sub_diag. reflexivity.
Qed.

(** Two requests in a row reach the driver in the order they were made,
    each with its own duration and its own callback; the request the
    driver was handed last is the second one, and the two callbacks
    differ whenever the vibration ids do, while naming the same vibrator
    and the same listener. *)
Theorem vibratorOn_twice
    (vibratorId : Z) (listener : jobject) (t1 t2 id1 id2 : jlong) (st : Recorded D) :
  let w := wrapperOn vibratorId listener in
  let cb1 := createCallback w id1 in
  let cb2 := createCallback w id2 in
  let st1 := snd (vibratorOn (Some w) t1 id1 st) in
  let st2 := snd (vibratorOn (Some w) t2 id2 st1) in
  (exists k1 k2 : nat,
      (k1 <= bound)%nat /\ (k2 <= bound)%nat
      /\ calls st2
         = calls st ++ repeat (OpOn t1 cb1) (S k1) ++ repeat (OpOn t2 cb2) (S k2))
  /\ last (calls st2) OpOff = OpOn t2 cb2
  /\ (id1 <> id2 -> fire cb1 [] <> fire cb2 [])
  /\ cb_vibratorId cb1 = cb_vibratorId cb2
  /\ cb_listener cb1 = cb_listener cb2.
Proof.
  intros w cb1 cb2 st1 st2.
  assert (Hon : forall t id s,
             exists k : nat,
               (k <= bound)%nat
               /\ calls (snd (vibratorOn (Some w) t id s))
                  = calls s ++ repeat (OpOn t (createCallback w id)) (S k)).
  { intros t id s.
    destruct (halCall_calls hal reconnect classification bound describe connect
                (fun h => on h t (createCallback w id))
                (OpOn t (createCallback w id)) vibratorId listener "on" s
                ltac:(issues_by (on hal t (createCallback w id))))
      as [k [Hk Hc]].
    exists k. split; [exact Hk|]. rewrite <- Hc. subst w. unfold vibratorOn.
    match goal with
    | |- context [let (_, _) := ?e in _] => destruct e as [r st']
    end.
    reflexivity. }
  destruct (Hon t1 id1 st) as [k1 [Hk1 Hc1]].
  destruct (Hon t2 id2 st1) as [k2 [Hk2 Hc2]].
  fold st1 in Hc1. fold st2 in Hc2.
  assert (Hall : calls st2
                 = calls st ++ repeat (OpOn t1 cb1) (S k1)
                   ++ repeat (OpOn t2 cb2) (S k2)).
  { rewrite Hc2, Hc1, <- app_assoc. reflexivity. }
  split; [exists k1, k2; auto|].
  split.
  - rewrite Hall, !app_assoc.
    replace (repeat (OpOn t2 cb2) (S k2))
      with (repeat (OpOn t2 cb2) k2 ++ [OpOn t2 cb2])
      by (rewrite repeat_snoc; reflexivity).
    rewrite app_assoc. apply last_last.
  - split; [|split; reflexivity].
    intros Hne Heq. apply Hne.
    unfold fire, cb1, cb2, createCallback in Heq. simpl in Heq.
    congruence.
Qed.

End Sequences.

Section Decoding.

Context {D : Type}.

(** For a positive duration the value [vibratorOn] returns tells the
    three outcomes apart: it is the duration exactly on success, 0
    exactly when the operation is unsupported, and -1 exactly on
    failure. *)
Theorem vibratorOn_result_decodes
    (w : VibratorControllerWrapper D) (timeoutMs vibrationId : jlong) (st : D) :
  0 < timeoutMs ->
  let r := fst (doWithRetry (mHal w)
                  (fun h => on h timeoutMs (createCallback w vibrationId)) "on" st) in
  let ret := fst (vibratorOn (Some w) timeoutMs vibrationId st) in
  (ret = timeoutMs <-> isOk r = true)
  /\ (ret = 0 <-> isUnsupported r = true)
  /\ (ret = -1 <-> isFailed r = true).
Proof.
  intros Hpos r ret. subst ret r. unfold vibratorOn, halCall.
  destruct (doWithRetry (mHal w) _ "on" st) as [[v| |m] st']; simpl;
    repeat split; intros H; try reflexivity; try discriminate H; lia.
Qed.

Variable manager : option (ManagerHalController D).

(** A pointer returned by [nativeInit] is a wrapper around the controller
    found for the vibrator id, initialised once.  Every vibration started
    through it hands the driver a callback for the listener reference
    taken at construction and the vibrator id given there, and every info
    object read through it carries that id. *)
Theorem nativeInit_then_use
    (env : JNIEnv) (vibratorId : jint) (callbackListener : option jobject)
    (st st' : D) (ptr : NativePtr D) :
  vibratorNativeInit manager env vibratorId callbackListener st
  = Completed (ptr, st') ->
  exists (h : HalController D) (l : jobject),
    findVibrator manager vibratorId = Some h
    /\ NewGlobalRef env callbackListener = Some l
    /\ st' = init h st
    /\ (forall (timeoutMs vibrationId : jlong) (s : D),
           let callback := {| cb_listener := l;
                              cb_vibratorId := vibratorId;
                              cb_vibrationId := vibrationId |} in
           let r := doWithRetry h (fun hal => on hal timeoutMs callback) "on" s in
           vibratorOn ptr timeoutMs vibrationId s
           = (match fst r with
              | HalOk _ => timeoutMs
              | HalUnsupported => 0
              | HalFailed _ => -1
              end, snd r))
    /\ (forall s : D,
           exists vi : VibratorInfo,
             fst (vibratorGetInfo ptr s) = Some vi /\ vi_id vi = vibratorId).
Proof.
  unfold vibratorNativeInit, newVibratorControllerWrapper, initHal.
  destruct (findVibrator manager vibratorId) as [h|]; [|discriminate].
  destruct (NewGlobalRef env callbackListener) as [l|]; [|discriminate].
  intros H. inversion H; subst. clear H.
  exists h, l.
  split; [reflexivity | split; [reflexivity | split; [reflexivity | split]]].
  - intros timeoutMs vibrationId s. cbv zeta.
    unfold vibratorOn, halCall, createCallback. simpl.
    destruct (doWithRetry h _ "on" s) as [[v| |m] s']; reflexivity.
  - intros s. unfold vibratorGetInfo, getVibratorInfo. simpl.
    destruct (getInfo h s) as [info s']. eexists. split; reflexivity.
Qed.

(** A controller alone is not enough: when the listener reference cannot
    be taken, [nativeInit] aborts as well, with the message of the second
    check, and the controller is not initialised. *)
Theorem nativeInit_needs_listener
    (env : JNIEnv) (vibratorId : jint) (callbackListener : option jobject) (st : D)
    (h : HalController D) :
  findVibrator manager vibratorId = Some h ->
  NewGlobalRef env callbackListener = None ->
  vibratorNativeInit manager env vibratorId callbackListener st
  = Aborted "Unable to create global reference to vibration callback handler".
Proof.
  intros Hh Hl.
  unfold vibratorNativeInit, newVibratorControllerWrapper.
  rewrite Hh, Hl. reflexivity.
Qed.

End Decoding.

(* ------------------------------------------------------------------ *)
(** * Properties of the mesh wrapper *)

(** ** Blocks of memory *)

Section MemoryFacts.

Import Mesh.

Lemma update_length (p : sk_sp) (f : SkData -> SkData) (m : Memory) :
  List.length (update p f m) = List.length m.
Proof.
  revert p. induction m as [|d rest IH]; intros [|p]; simpl; auto.
Qed.

Lemma deref_update_same (p : sk_sp) (f : SkData -> SkData) (m : Memory) :
  (p < List.length m)%nat -> deref (update p f m) p = f (deref m p).
Proof.
  unfold deref. revert p.
  induction m as [|d rest IH]; intros [|p] H; simpl in *; try lia; auto.
  apply IH. lia.
Qed.

Lemma deref_update_other (p q : sk_sp) (f : SkData -> SkData) (m : Memory) :
  p <> q -> deref (update p f m) q = deref m q.
Proof.
  unfold deref. revert p q.
  induction m as [|d rest IH]; intros [|p] [|q] H; simpl; auto; try congruence.
Qed.

Lemma update_update (p : sk_sp) (f g : SkData -> SkData) (m : Memory) :
  update p g (update p f m) = update p (fun d => g (f d)) m.
Proof.
  revert p. induction m as [|d rest IH]; intros [|p]; simpl; auto.
  now rewrite IH.
Qed.

Lemma update_ext_at (p : sk_sp) (f g : SkData -> SkData) (m : Memory) :
  f (deref m p) = g (deref m p) -> (p < List.length m)%nat ->
  update p f m = update p g m.
Proof.
  unfold deref. revert p.
  induction m as [|d rest IH]; intros [|p] Heq Hlt; simpl in *; try lia.
  - now rewrite Heq.
  - f_equal. apply IH; [exact Heq | lia].
Qed.

Lemma deref_app_old (m extra : Memory) (p : sk_sp) :
  (p < List.length m)%nat -> deref (m ++ extra) p = deref m p.
Proof.
  intros H. unfold deref. now rewrite app_nth1.
Qed.

Lemma deref_app_new (m : Memory) (d : SkData) :
  deref (m ++ [d]) (List.length m) = d.
Proof.
  unfold deref. rewrite app_nth2 by lia. now rewrite Nat.sub_diag.
Qed.

Lemma overwrite_length (o : nat) (src dst : list byte) :
  (o + List.length src <= List.length dst)%nat ->
  List.length (overwrite o src dst) = List.length dst.
Proof.
  intros H. unfold overwrite.
  rewrite !length_app, length_firstn, length_skipn. lia.
Qed.

Lemma overwrite_before (o : nat) (src dst : list byte) :
  (o <= List.length dst)%nat -> firstn o (overwrite o src dst) = firstn o dst.
Proof.
  intros H. unfold overwrite.
  rewrite firstn_app, length_firstn, Nat.min_l by lia.
  rewrite Nat.sub_diag, firstn_O, app_nil_r.
  rewrite firstn_firstn, Nat.min_id. reflexivity.
Qed.

Lemma overwrite_at (o : nat) (src dst : list byte) :
  (o <= List.length dst)%nat ->
  skipn o (overwrite o src dst) = src ++ skipn (o + List.length src) dst.
Proof.
  intros H. unfold overwrite.
  rewrite skipn_app, length_firstn, Nat.min_l by lia.
  rewrite Nat.sub_diag, skipn_O.
  rewrite skipn_all2 by (rewrite length_firstn; lia). reflexivity.
Qed.

Lemma overwrite_after (o : nat) (src dst : list byte) :
  (o <= List.length dst)%nat ->
  skipn (o + List.length src) (overwrite o src dst)
  = skipn (o + List.length src) dst.
Proof.
  intros H.
  rewrite (Nat.add_comm o (List.length src)) at 1.
  rewrite <- skipn_skipn, overwrite_at by exact H.
  rewrite skipn_app, Nat.sub_diag, skipn_O.
  now rewrite skipn_all2 by lia.
Qed.

Lemma overwrite_adjacent (o : nat) (a b dst : list byte) :
  (o <= List.length dst)%nat ->
  overwrite (o + List.length a) b (overwrite o a dst) = overwrite o (a ++ b) dst.
Proof.
  intros H. unfold overwrite at 1.
  rewrite <- (firstn_skipn o (overwrite o a dst)) at 1.
  rewrite overwrite_before, overwrite_at by exact H.
  rewrite firstn_app, length_firstn, Nat.min_l by lia.
  replace (o + List.length a - o)%nat with (List.length a) by lia.
  rewrite firstn_app, Nat.sub_diag, firstn_O, app_nil_r, firstn_all.
  rewrite (firstn_all2 (n := (o + List.length a)%nat))
    by (rewrite length_firstn; lia).
  replace (o + List.length a + List.length b)%nat
    with (List.length b + (o + List.length a))%nat by lia.
  rewrite <- skipn_skipn, overwrite_after by exact H.
  rewrite skipn_skipn.
  unfold overwrite. rewrite length_app, <- !app_assoc.
  do 3 f_equal. f_equal. lia.
Qed.

End MemoryFacts.

(** ** Writing uniforms *)

Section UniformFacts.

Import Mesh.

Lemma unique_refs (m : Memory) (p : sk_sp) :
  unique m p = true <-> refs (deref m p) = 1%nat.
Proof.
  unfold unique. apply Nat.eqb_eq.
Qed.

(** After [writableUniformData] the builder refers to a block it holds
    alone, with the bytes its block had; the bytes of every block that
    existed before are as they were. *)
Lemma writableUniformData_private (b : MeshUniformBuilder) (m : Memory) :
  (fUniforms b < List.length m)%nat ->
  exists (p : sk_sp) (b' : MeshUniformBuilder) (m' : Memory),
    writableUniformData b m = (p, b', m')
    /\ fUniforms b' = p
    /\ fMeshSpec b' = fMeshSpec b
    /\ (p < List.length m')%nat
    /\ deref m' p = {| bytes := bytes (deref m (fUniforms b)); refs := 1 |}
    /\ (forall q, (q < List.length m)%nat -> bytes (deref m' q) = bytes (deref m q))
    /\ (refs (deref m (fUniforms b)) = 1%nat -> p = fUniforms b /\ m' = m)
    /\ (refs (deref m (fUniforms b)) <> 1%nat ->
        p = List.length m
        /\ refs (deref m' (fUniforms b)) = pred (refs (deref m (fUniforms b)))).
Proof.
  intros Hp. unfold writableUniformData.
  destruct (unique m (fUniforms b)) eqn:Hu; simpl.
  - apply unique_refs in Hu.
    exists (fUniforms b), b, m. repeat split; auto; try contradiction.
    destruct (deref m (fUniforms b)) as [bs r]. simpl in *. now subst r.
  - assert (Hr : refs (deref m (fUniforms b)) <> 1%nat).
    { intros H. apply unique_refs in H. congruence. }
    eexists _, _, _. split; [reflexivity|]. simpl.
    split; [reflexivity|]. split; [reflexivity|].
    split; [unfold unref; rewrite update_length, length_app; simpl; lia|].
    split.
    { unfold unref. rewrite deref_update_other by lia. apply deref_app_new. }
    split.
    { intros q Hq. unfold unref.
      destruct (Nat.eq_dec (fUniforms b) q) as [<-|Hne].
      - rewrite deref_update_same by (rewrite length_app; simpl; lia).
        simpl. now rewrite deref_app_old.
      - rewrite deref_update_other by exact Hne. now rewrite deref_app_old. }
    split; [contradiction|].
    intros _. split; [reflexivity|].
    unfold unref. rewrite deref_update_same by (rewrite length_app; simpl; lia).
    simpl. now rewrite deref_app_old.
Qed.

(** [set] writes nothing unless the variable exists and the size of the
    value is the size of the variable: in a build without debug checks
    it returns false and leaves the builder and every block as they
    were, in a build with them it ends the process. *)
Theorem set_rejects_without_writing
    (LOG_NDEBUG : bool) (fVar : option Uniform) (sizeofT : Z) (val : list byte)
    (count : Z) (b : MeshUniformBuilder) (m : Memory) :
  fVar = None
  \/ (exists var, fVar = Some var
                  /\ to_size_t (sizeofT * to_size_t count) <> sizeInBytes var) ->
  (LOG_NDEBUG = true ->
   set LOG_NDEBUG fVar sizeofT val count b m = Completed (false, (b, m)))
  /\ (LOG_NDEBUG = false ->
      exists message, set LOG_NDEBUG fVar sizeofT val count b m = Aborted message)
  /\ (forall ok b' m',
         set LOG_NDEBUG fVar sizeofT val count b m = Completed (ok, (b', m')) ->
         ok = false /\ b' = b /\ m' = m).
Proof.
  intros [-> | [var [-> Hsize]]]; unfold set, LOG_FATAL.
  - destruct LOG_NDEBUG; repeat split; try discriminate; eauto;
      inversion H; subst; reflexivity.
  - apply Z.eqb_neq in Hsize. rewrite Hsize. simpl.
    destruct LOG_NDEBUG; repeat split; try discriminate; eauto;
      inversion H; subst; reflexivity.
Qed.

(** When the variable exists, the size matches and the variable lies
    inside the block, [set] returns true and the builder's block holds
    the old bytes with the value in place of the bytes of the variable;
    the block has the length it had and one reference, the
    builder's. *)
Theorem set_writes_value
    (LOG_NDEBUG : bool) (var : Uniform) (sizeofT : Z) (val : list byte)
    (count : Z) (b : MeshUniformBuilder) (m : Memory) :
  (fUniforms b < List.length m)%nat ->
  to_size_t (sizeofT * to_size_t count) = sizeInBytes var ->
  List.length val = Z.to_nat (sizeInBytes var) ->
  (Z.to_nat (offset var) + List.length val
   <= List.length (bytes (deref m (fUniforms b))))%nat ->
  let old := bytes (deref m (fUniforms b)) in
  let o := Z.to_nat (offset var) in
  exists (b' : MeshUniformBuilder) (m' : Memory),
    set LOG_NDEBUG (Some var) sizeofT val count b m = Completed (true, (b', m'))
    /\ fMeshSpec b' = fMeshSpec b
    /\ bytes (deref m' (fUniforms b'))
       = firstn o old ++ val ++ skipn (o + List.length val) old
    /\ List.length (bytes (deref m' (fUniforms b'))) = List.length old
    /\ refs (deref m' (fUniforms b')) = 1%nat.
Proof.
  intros Hp Hsize Hlen Hin old o.
  destruct (writableUniformData_private b m Hp)
    as [p [b' [m' [Hw [Hb [Hs [Hp' [Hd _]]]]]]]].
  unfold set. rewrite Hsize, Z.eqb_refl. simpl. rewrite Hw.
  rewrite <- Hlen, firstn_all.
  eexists _, _. split; [reflexivity|]. rewrite Hb.
  unfold memcpy. rewrite deref_update_same by exact Hp'. rewrite Hd. simpl.
  fold old o. repeat split; auto.
  apply overwrite_length. exact Hin.
Qed.

(** Copy on write: a [set] that succeeds never changes the bytes of a
    block other than the one the builder ends up with.  When the
    builder's block had other holders, the builder moves to a new block,
    the old block keeps its bytes and loses one reference; when the
    builder held it alone, the block is written in place. *)
Theorem set_copies_shared_block
    (LOG_NDEBUG : bool) (var : Uniform) (sizeofT : Z) (val : list byte)
    (count : Z) (b b' : MeshUniformBuilder) (m m' : Memory) :
  (fUniforms b < List.length m)%nat ->
  set LOG_NDEBUG (Some var) sizeofT val count b m = Completed (true, (b', m')) ->
  (forall q, (q < List.length m)%nat -> q <> fUniforms b' ->
             bytes (deref m' q) = bytes (deref m q))
  /\ (refs (deref m (fUniforms b)) <> 1%nat ->
      fUniforms b' = List.length m
      /\ bytes (deref m' (fUniforms b)) = bytes (deref m (fUniforms b))
      /\ refs (deref m' (fUniforms b)) = pred (refs (deref m (fUniforms b))))
  /\ (refs (deref m (fUniforms b)) = 1%nat ->
      fUniforms b' = fUniforms b /\ List.length m' = List.length m).
Proof.
  intros Hp Hset.
  destruct (writableUniformData_private b m Hp)
    as [p [b1 [m1 [Hw [Hb [Hs [Hp1 [Hd [Hframe [Hu Hsh]]]]]]]]]].
  unfold set in Hset.
  destruct (negb (to_size_t (sizeofT * to_size_t count) =? sizeInBytes var));
    [unfold LOG_FATAL in Hset; destruct LOG_NDEBUG; discriminate|].
  rewrite Hw in Hset. inversion Hset; subst b' m'. clear Hset.
  rewrite Hb. unfold memcpy. split; [|split].
  - intros q Hq Hne. rewrite deref_update_other by congruence. now apply Hframe.
  - intros Hr. destruct (Hsh Hr) as [Hpn Hrefs].
    split; [exact Hpn|].
    rewrite deref_update_other by lia.
    split; [now apply Hframe | exact Hrefs].
  - intros Hr. destruct (Hu Hr) as [Hpe Hm]. subst m1.
    split; [exact Hpe | apply update_length].
Qed.

End UniformFacts.

(** ** Writing a matrix *)

Section MatrixFacts.

Import Mesh.

Lemma memcpy_adjacent (p : sk_sp) (o o' : nat) (a c : list byte) (m : Memory) :
  o' = (o + List.length a)%nat ->
  (p < List.length m)%nat ->
  (o <= List.length (bytes (deref m p)))%nat ->
  memcpy p o' c (memcpy p o a m) = memcpy p o (a ++ c) m.
Proof.
  intros -> Hp Ho. unfold memcpy. rewrite update_update.
  apply update_ext_at; [|exact Hp]. simpl.
  now rewrite overwrite_adjacent.
Qed.

Lemma memcpy_bytes (p : sk_sp) (o : nat) (src : list byte) (m : Memory) :
  (p < List.length m)%nat ->
  bytes (deref (memcpy p o src m) p) = overwrite o src (bytes (deref m p))
  /\ refs (deref (memcpy p o src m) p) = refs (deref m p).
Proof.
  intros Hp. unfold memcpy. rewrite deref_update_same by exact Hp. split; reflexivity.
Qed.

Lemma loadFloat_overwrite (o j : nat) (src dst : list byte) :
  (o <= List.length dst)%nat ->
  loadFloat o j (overwrite o src dst)
  = firstn 4 (skipn (4 * j) (src ++ skipn (o + List.length src) dst)).
Proof.
  intros Ho. unfold loadFloat.
  rewrite (Nat.add_comm o (4 * j)), <- skipn_skipn, overwrite_at by exact Ho.
  reflexivity.
Qed.

(** Assigning a matrix stores it transposed: the float at index
    [3 * c + r] of the variable is the entry [3 * r + c] of the matrix,
    for every row [r] and column [c].  Bytes before and after the
    variable, and the length of the block, stay as they were. *)
Theorem assignMatrix_stores_transpose
    (LOG_NDEBUG : bool) (var : Uniform) (val : SkMatrix)
    (b : MeshUniformBuilder) (m : Memory) :
  (fUniforms b < List.length m)%nat ->
  sizeInBytes var = 36 ->
  (Z.to_nat (offset var) + 36 <= List.length (bytes (deref m (fUniforms b))))%nat ->
  let old := bytes (deref m (fUniforms b)) in
  let o := Z.to_nat (offset var) in
  exists (b' : MeshUniformBuilder) (m' : Memory),
    assignMatrix LOG_NDEBUG (Some var) val b m = Completed (b', m')
    /\ (forall r c : nat,
           (r < 3)%nat -> (c < 3)%nat ->
           loadFloat o (3 * c + r) (bytes (deref m' (fUniforms b')))
           = bytesOf (get val (3 * r + c)))
    /\ List.length (bytes (deref m' (fUniforms b'))) = List.length old
    /\ firstn o (bytes (deref m' (fUniforms b'))) = firstn o old
    /\ skipn (o + 36) (bytes (deref m' (fUniforms b'))) = skipn (o + 36) old.
Proof.
  intros Hp Hsize Hin old o.
  destruct (writableUniformData_private b m Hp)
    as [p [b' [m' [Hw [Hb [Hs [Hp' [Hd _]]]]]]]].
  assert (Hold : bytes (deref m' p) = old) by (rewrite Hd; reflexivity).
  assert (Ho : (o <= List.length (bytes (deref m' p)))%nat)
    by (rewrite Hold; unfold old, o; lia).
  unfold assignMatrix. rewrite Hsize. change (9 * sizeof_float) with 36.
  rewrite Z.eqb_refl. simpl negb. cbv iota. rewrite Hw. fold o.
  unfold storeFloat.
  destruct (get val 0) as [[[a0 a1] a2] a3] eqn:G0.
  destruct (get val 1) as [[[b0 b1] b2] b3] eqn:G1.
  destruct (get val 2) as [[[c0 c1] c2] c3] eqn:G2.
  destruct (get val 3) as [[[d0 d1] d2] d3] eqn:G3.
  destruct (get val 4) as [[[e0 e1] e2] e3] eqn:G4.
  destruct (get val 5) as [[[f0 f1] f2] f3] eqn:G5.
  destruct (get val 6) as [[[g0 g1] g2] g3] eqn:G6.
  destruct (get val 7) as [[[h0 h1] h2] h3] eqn:G7.
  destruct (get val 8) as [[[i0 i1] i2] i3] eqn:G8.
  cbn [bytesOf].
  repeat (rewrite (memcpy_adjacent p (o + 4 * 0)) by (simpl; lia || exact Hp')).
  eexists _, _. split; [reflexivity|]. rewrite Hb.
  destruct (memcpy_bytes p (o + 4 * 0)
              ([a0; a1; a2; a3] ++ [d0; d1; d2; d3] ++ [g0; g1; g2; g3]
               ++ [b0; b1; b2; b3] ++ [e0; e1; e2; e3] ++ [h0; h1; h2; h3]
               ++ [c0; c1; c2; c3] ++ [f0; f1; f2; f3] ++ [i0; i1; i2; i3])
              m' Hp') as [Hbytes _].
  simpl app in Hbytes.
  replace (o + 4 * 0)%nat with o in * by lia.
  match goal with
  | |- context [memcpy p o ?src m'] =>
      replace (memcpy p o src m')
        with (memcpy p o [a0; a1; a2; a3; d0; d1; d2; d3; g0; g1; g2; g3;
                          b0; b1; b2; b3; e0; e1; e2; e3; h0; h1; h2; h3;
                          c0; c1; c2; c3; f0; f1; f2; f3; i0; i1; i2; i3] m')
        by reflexivity
  end.
  rewrite Hbytes, Hold.
  split; [|split; [|split]].
  - intros r c Hr Hc. rewrite loadFloat_overwrite by (unfold old, o; lia).
    destruct r as [|[|[|r]]]; try lia;
      destruct c as [|[|[|c]]]; try lia; simpl;
      rewrite ?G0, ?G1, ?G2, ?G3, ?G4, ?G5, ?G6, ?G7, ?G8; reflexivity.
  - apply overwrite_length. simpl. unfold old, o. lia.
  - apply overwrite_before. unfold old, o. lia.
  - apply (overwrite_after o
             [a0; a1; a2; a3; d0; d1; d2; d3; g0; g1; g2; g3;
              b0; b1; b2; b3; e0; e1; e2; e3; h0; h1; h2; h3;
              c0; c1; c2; c3; f0; f1; f2; f3; i0; i1; i2; i3] old).
    unfold old, o. lia.
Qed.

End MatrixFacts.

(** ** The mesh and its [SkMesh] *)

Section MeshFacts.

Import Mesh.

Lemma sameID_refl (a : DirectContextID) : sameID a a = true.
Proof.
  destruct a as [x|]; simpl; [apply Z.eqb_refl | reflexivity].
Qed.

Lemma sameID_eq (a b : DirectContextID) : sameID a b = true <-> a = b.
Proof.
  destruct a as [x|], b as [y|]; simpl; split; intros H;
    try discriminate; try reflexivity.
  - apply Z.eqb_eq in H. now subst.
  - inversion H. apply Z.eqb_refl.
Qed.

(** The id [updateSkMesh] compares with: the id of the context, or the
    default id when there is no context. *)
Local Abbreviation idOf context :=
  (match context with Some c => directContextID c | None => None end).

(** After [updateSkMesh] the mesh is not dirty and carries the id of the
    context, so [getSkMesh] returns its [SkMesh] in either build; a
    second [updateSkMesh] with the same context changes nothing. *)
Theorem updateSkMesh_settles
    (LOG_NDEBUG : bool) (context : option GrDirectContext) (mesh : Mesh) :
  let mesh' := updateSkMesh context mesh in
  mIsDirty mesh' = false
  /\ mGenerationId mesh' = idOf context
  /\ getSkMesh LOG_NDEBUG mesh' = Completed (mMesh mesh')
  /\ updateSkMesh context mesh' = mesh'.
Proof.
  intros mesh'.
  assert (Hclean : mIsDirty mesh' = false /\ mGenerationId mesh' = idOf context).
  { subst mesh'. unfold updateSkMesh.
    destruct (mIsDirty mesh) eqn:Hd; simpl; [split; reflexivity|].
    destruct (sameID (idOf context) (mGenerationId mesh)) eqn:Hs; simpl.
    - split; [exact Hd | symmetry; now apply sameID_eq].
    - split; reflexivity. }
  destruct Hclean as [Hd Hg].
  split; [exact Hd|]. split; [exact Hg|]. split.
  - unfold getSkMesh. now rewrite Hd.
  - unfold updateSkMesh at 1. rewrite Hd, Hg, sameID_refl. reflexivity.
Qed.

(** [updateSkMesh] builds a new [SkMesh] exactly when the mesh is dirty
    or the id of the context differs from the one the mesh was built
    for.  Otherwise the mesh is left as it is, whatever block the
    uniform builder refers to by now. *)
Theorem updateSkMesh_rebuilds_iff (context : option GrDirectContext) (mesh : Mesh) :
  (mIsDirty mesh = true \/ idOf context <> mGenerationId mesh ->
   exists vertexBuffer,
     vertexBuffer = MakeVertexBuffer context (mVertexBufferData mesh)
     /\ mMesh (updateSkMesh context mesh)
        = match mIndexBufferData mesh with
          | [] =>
              Make (mMeshSpec mesh) (mMode mesh) vertexBuffer (mVertexCount mesh)
                (mVertexOffset mesh) (fUniforms (mBuilder mesh)) (mBounds mesh)
          | _ :: _ =>
              MakeIndexed (mMeshSpec mesh) (mMode mesh) vertexBuffer
                (mVertexCount mesh) (mVertexOffset mesh)
                (MakeIndexBuffer context (mIndexBufferData mesh))
                (mIndexCount mesh) (mIndexOffset mesh)
                (fUniforms (mBuilder mesh)) (mBounds mesh)
          end)
  /\ (mIsDirty mesh = false -> idOf context = mGenerationId mesh ->
      updateSkMesh context mesh = mesh).
Proof.
  split.
  - intros H. eexists. split; [reflexivity|].
    unfold updateSkMesh.
    assert (Hc : mIsDirty mesh
                 || negb (sameID (idOf context) (mGenerationId mesh)) = true).
    { destruct H as [-> | Hne]; [reflexivity|].
      destruct (sameID (idOf context) (mGenerationId mesh)) eqn:Hs.
      - apply sameID_eq in Hs. contradiction.
      - apply orb_true_r. }
    rewrite Hc. simpl. destruct (mIndexBufferData mesh); reflexivity.
  - intros Hd Hg. unfold updateSkMesh.
    rewrite Hd, Hg, sameID_refl. reflexivity.
Qed.

(** A change of the uniforms reaches the [SkMesh] through [markDirty]:
    after it, [updateSkMesh] builds the [SkMesh] over the block the
    builder refers to at that time, keeps the buffers and counts of the
    mesh, and leaves the mesh clean. *)
Theorem markDirty_then_update (context : option GrDirectContext) (mesh : Mesh) :
  let mesh' := updateSkMesh context (markDirty mesh) in
  mIsDirty (markDirty mesh) = true
  /\ mIsDirty mesh' = false
  /\ mBuilder mesh' = mBuilder mesh
  /\ mVertexBufferData mesh' = mVertexBufferData mesh
  /\ mIndexBufferData mesh' = mIndexBufferData mesh
  /\ match mMesh mesh' with
     | DefaultSkMesh => False
     | Make _ _ _ _ _ uniforms _ =>
         uniforms = fUniforms (mBuilder mesh) /\ mIndexBufferData mesh = []
     | MakeIndexed _ _ _ _ _ ib _ _ uniforms _ =>
         uniforms = fUniforms (mBuilder mesh)
         /\ mIndexBufferData mesh <> []
         /\ ib = MakeIndexBuffer context (mIndexBufferData mesh)
     end.
Proof.
  unfold updateSkMesh, markDirty. simpl.
  do 5 (split; [reflexivity|]).
  destruct (mIndexBufferData mesh) as [|x rest]; simpl.
  - split; reflexivity.
  - split; [reflexivity|]. split; [discriminate | reflexivity].
Qed.

(** A mesh is dirty from its construction: [getSkMesh] before any
    [updateSkMesh] ends the process in a build with debug checks and
    returns the default [SkMesh] otherwise.  The first [updateSkMesh]
    always builds, also without a context. *)
Theorem new_mesh_is_dirty
    (LOG_NDEBUG : bool) (meshSpec : SkMeshSpecification) (mode : Z)
    (vertexBuffer indexBuffer : option (list byte))
    (vertexBufferSize indexBufferSize : nat)
    (vertexCount vertexOffset indexCount indexOffset : jint)
    (builder : MeshUniformBuilder) (bounds : SkRect)
    (context : option GrDirectContext) :
  let plain := newMesh meshSpec mode vertexBuffer vertexBufferSize vertexCount
                 vertexOffset builder bounds in
  let indexed := newIndexedMesh meshSpec mode vertexBuffer vertexBufferSize
                   vertexCount vertexOffset indexBuffer indexBufferSize indexCount
                   indexOffset builder bounds in
  let fatal : Fatal SkMesh :=
    if LOG_NDEBUG then Completed DefaultSkMesh
    else Aborted "Attempt to obtain SkMesh when Mesh is dirty, did you forget to call updateSkMesh with a GrDirectContext? Defensively creating a CPU mesh" in
  getSkMesh LOG_NDEBUG plain = fatal
  /\ getSkMesh LOG_NDEBUG indexed = fatal
  /\ mMesh (updateSkMesh context plain) <> DefaultSkMesh
  /\ mMesh (updateSkMesh context indexed) <> DefaultSkMesh.
Proof.
  intros plain indexed fatal. subst fatal.
  split; [unfold getSkMesh, LOG_FATAL; simpl; destruct LOG_NDEBUG; reflexivity|].
  split; [unfold getSkMesh, LOG_FATAL; simpl; destruct LOG_NDEBUG; reflexivity|].
  split.
  - unfold updateSkMesh. simpl. discriminate.
  - unfold updateSkMesh. simpl.
    destruct (copyToVector [] indexBuffer indexBufferSize); simpl; discriminate.
Qed.

(** Whether the [SkMesh] is indexed depends on the index bytes alone.  A
    mesh made without an index buffer, or with a null one, or with one of
    size zero, is built without indices whatever index count it was
    given; a mesh made with index bytes is built over exactly the first
    [indexBufferSize] bytes of them. *)
Theorem indexed_only_with_index_bytes
    (meshSpec : SkMeshSpecification) (mode : Z)
    (vertexBuffer indexBuffer : option (list byte))
    (vertexBufferSize indexBufferSize : nat)
    (vertexCount vertexOffset indexCount indexOffset : jint)
    (builder : MeshUniformBuilder) (bounds : SkRect)
    (context : option GrDirectContext) :
  let vb := MakeVertexBuffer context (copyToVector [] vertexBuffer vertexBufferSize) in
  let plain := newMesh meshSpec mode vertexBuffer vertexBufferSize vertexCount
                 vertexOffset builder bounds in
  let indexed := newIndexedMesh meshSpec mode vertexBuffer vertexBufferSize
                   vertexCount vertexOffset indexBuffer indexBufferSize indexCount
                   indexOffset builder bounds in
  let unindexedMesh :=
    Make meshSpec mode vb (to_size_t vertexCount) (to_size_t vertexOffset)
      (fUniforms builder) bounds in
  mMesh (updateSkMesh context plain) = unindexedMesh
  /\ (indexBuffer = None \/ indexBufferSize = 0%nat ->
      mMesh (updateSkMesh context indexed) = unindexedMesh)
  /\ (forall memory first rest,
         indexBuffer = Some memory ->
         firstn indexBufferSize memory = first :: rest ->
         mMesh (updateSkMesh context indexed)
         = MakeIndexed meshSpec mode vb (to_size_t vertexCount)
             (to_size_t vertexOffset) (MakeIndexBuffer context (first :: rest))
             (to_size_t indexCount) (to_size_t indexOffset) (fUniforms builder)
             bounds).
Proof.
  intros vb plain indexed unindexedMesh.
  split; [reflexivity|]. split.
  - intros [-> | ->]; unfold updateSkMesh; simpl; [reflexivity|].
    destruct indexBuffer; reflexivity.
  - intros memory first rest -> Hf.
    unfold updateSkMesh. simpl. rewrite Hf. reflexivity.
Qed.

(** The vertex bytes of a mesh are a copy of the first
    [vertexBufferSize] bytes at the pointer, and none for a null
    pointer.  Counts and offsets are kept as [size_t]: a value from 0
    on is stored as it is, a negative one as that value plus 2^64. *)
Theorem newMesh_copies_and_widens
    (meshSpec : SkMeshSpecification) (mode : Z)
    (vertexBuffer : option (list byte)) (vertexBufferSize : nat)
    (vertexCount vertexOffset : jint)
    (builder : MeshUniformBuilder) (bounds : SkRect) :
  - 2 ^ 31 <= vertexCount < 2 ^ 31 ->
  let mesh := newMesh meshSpec mode vertexBuffer vertexBufferSize vertexCount
                vertexOffset builder bounds in
  (vertexBuffer = None -> mVertexBufferData mesh = [])
  /\ (forall memory,
         vertexBuffer = Some memory ->
         (vertexBufferSize <= List.length memory)%nat ->
         List.length (mVertexBufferData mesh) = vertexBufferSize
         /\ forall i, (i < vertexBufferSize)%nat ->
                      nth_error (mVertexBufferData mesh) i = nth_error memory i)
  /\ (0 <= vertexCount -> mVertexCount mesh = vertexCount)
  /\ (vertexCount < 0 -> mVertexCount mesh = vertexCount + 2 ^ 64).
Proof.
  intros Hrange mesh. subst mesh. simpl. repeat split.
  - intros ->. reflexivity.
  - subst. simpl. rewrite length_firstn. lia.
  - intros i Hi. subst. simpl. now rewrite nth_error_firstn, (proj2 (Nat.ltb_lt _ _) Hi).
  - intros H. unfold to_size_t. apply Z.mod_small. lia.
  - intros H. unfold to_size_t.
    replace vertexCount with (vertexCount + 2 ^ 64 + (-1) * 2 ^ 64) at 1 by lia.
    rewrite Z.mod_add by lia. apply Z.mod_small. lia.
Qed.

End MeshFacts.


(** ** Runs on concrete values *)

Lemma performEffect_identifiers_run :
  exists k : nat,
    (k <= 1)%nat
    /\ calls (snd (vibratorPerformEffect (Some (Stub.wrapper Stub.silent 1)) 0 1 9
                     (0%nat, [])))
       = [] ++ repeat (OpPerformEffect 0 1
                         {| cb_listener := 77; cb_vibratorId := 0;
                            cb_vibrationId := 9 |}) (S k).
Proof.
  refine (proj1 (performEffect_passes_identifiers (Stub.flaky 20) (fun d => d)
                   Stub.classify 1%nat (fun st => (Stub.silent, st)) (fun st => st)
                   0 77 0 1 9 (0%nat, []) _ _)); lia.
Defined.

Lemma vibratorOn_decodes_run :
  fst (vibratorOn (Some (Stub.wrapper Stub.silent 1)) 500 9 (0%nat, [])) = 500
  <-> isOk (fst (doWithRetry (mHal (Stub.wrapper Stub.silent 1))
                   (fun h => on h 500 (createCallback (Stub.wrapper Stub.silent 1) 9))
                   "on" (0%nat, []))) = true.
Proof.
  exact (proj1 (vibratorOn_result_decodes (Stub.wrapper Stub.silent 1) 500 9
                  (0%nat, []) eq_refl)).
Defined.

Lemma nativeInit_then_use_run :
  exists (h : HalController (Recorded nat)) (l : jobject),
    findVibrator (Some (Stub.managerOf (Stub.hc Stub.silent 1))) 0 = Some h
    /\ NewGlobalRef Stub.env (Some 77) = Some l
    /\ l = 77.
Proof.
  destruct (nativeInit_then_use (Some (Stub.managerOf (Stub.hc Stub.silent 1)))
              Stub.env 0 (Some 77) (0%nat, []) (0%nat, [])
              (Some (Stub.wrapper Stub.silent 1)) eq_refl)
    as [h [l [Hh [Hl _]]]].
  exists h, l. split; [exact Hh|]. split; [exact Hl|].
  simpl in Hl. inversion Hl. reflexivity.
Defined.

Lemma nativeInit_needs_listener_run :
  vibratorNativeInit (Some (Stub.managerOf (Stub.hc Stub.silent 1))) Stub.env 0 None
    (0%nat, [])
  = Aborted "Unable to create global reference to vibration callback handler".
Proof.
  exact (nativeInit_needs_listener (Some (Stub.managerOf (Stub.hc Stub.silent 1)))
           Stub.env 0 None (0%nat, []) (Stub.hc Stub.silent 1) eq_refl eq_refl).
Defined.

Lemma set_rejects_run :
  Mesh.set true (Mesh.uniform Mesh.exampleBuilder "missing") 4 Mesh.exampleValue 1
    Mesh.exampleBuilder (Mesh.exampleMemory 1)
  = Completed (false, (Mesh.exampleBuilder, Mesh.exampleMemory 1)).
Proof.
  exact (proj1 (set_rejects_without_writing true
                  (Mesh.uniform Mesh.exampleBuilder "missing") 4 Mesh.exampleValue 1
                  Mesh.exampleBuilder (Mesh.exampleMemory 1) (or_introl eq_refl))
           eq_refl).
Defined.

Lemma set_writes_run :
  exists (b' : Mesh.MeshUniformBuilder) (m' : Mesh.Memory),
    Mesh.set true (Some Mesh.colorVar) 4 Mesh.exampleValue 1 Mesh.exampleBuilder
      (Mesh.exampleMemory 1)
    = Completed (true, (b', m'))
    /\ Mesh.bytes (Mesh.deref m' (Mesh.fUniforms b'))
       = Mesh.exampleValue ++ repeat Byte.x00 36.
Proof.
  destruct (set_writes_value true Mesh.colorVar 4 Mesh.exampleValue 1
              Mesh.exampleBuilder (Mesh.exampleMemory 1))
    as [b' [m' [Hset [_ [Hbytes _]]]]];
    [simpl; lia | reflexivity | reflexivity | simpl; lia |].
  exists b', m'. split; [exact Hset | exact Hbytes].
Defined.

Lemma set_shared_run :
  Mesh.bytes
    (Mesh.deref
       [{| Mesh.bytes := repeat Byte.x00 40; Mesh.refs := 1%nat |};
        {| Mesh.bytes := Mesh.exampleValue ++ repeat Byte.x00 36; Mesh.refs := 1%nat |}]
       0%nat)
  = Mesh.bytes (Mesh.deref (Mesh.exampleMemory 2) 0%nat).
Proof.
  refine (proj1 (proj2 (proj1 (proj2
            (set_copies_shared_block true Mesh.colorVar 4 Mesh.exampleValue 1
               Mesh.exampleBuilder
               {| Mesh.fUniforms := 1%nat; Mesh.fMeshSpec := Mesh.exampleSpec |}
               (Mesh.exampleMemory 2)
               [{| Mesh.bytes := repeat Byte.x00 40; Mesh.refs := 1%nat |};
                {| Mesh.bytes := Mesh.exampleValue ++ repeat Byte.x00 36;
                   Mesh.refs := 1%nat |}]
               _ eq_refl)) _))).
  - simpl. lia.
  - simpl. discriminate.
Defined.

Lemma assignMatrix_run :
  exists (b' : Mesh.MeshUniformBuilder) (m' : Mesh.Memory),
    Mesh.assignMatrix true (Some Mesh.transformVar) Mesh.exampleMatrix
      Mesh.exampleBuilder (Mesh.exampleMemory 1)
    = Completed (b', m')
    /\ Mesh.loadFloat 4 1 (Mesh.bytes (Mesh.deref m' (Mesh.fUniforms b')))
       = [Byte.x03; Byte.x00; Byte.x00; Byte.x00].
Proof.
  destruct (assignMatrix_stores_transpose true Mesh.transformVar Mesh.exampleMatrix
              Mesh.exampleBuilder (Mesh.exampleMemory 1))
    as [b' [m' [Hrun [Hload _]]]];
    [simpl; lia | reflexivity | simpl; lia |].
  exists b', m'. split; [exact Hrun|].
  exact (Hload 1%nat 0%nat ltac:(lia) ltac:(lia)).
Defined.

Lemma newMesh_widens_run :
  Mesh.mVertexCount
    (Mesh.newMesh Mesh.exampleSpec 0 None 0%nat (-1) 0 Mesh.exampleBuilder
       Mesh.exampleBounds)
  = -1 + 2 ^ 64.
Proof.
  refine (proj2 (proj2 (proj2
            (newMesh_copies_and_widens Mesh.exampleSpec 0 None 0%nat (-1) 0
               Mesh.exampleBuilder Mesh.exampleBounds _))) _); lia.
Defined.
